(** * Healthcare claims processor: ingestion, normalization and aggregation

    A shallow embedding of the parser module of the repository
    ([src/app/utils/fixedFileParser.server.ts], and the copy of the
    original parser that follows the application shell in
    [src/app/root.tsx]) together with the part of the JavaScript runtime
    the code relies on: strings, IEEE-754 numbers, property order of
    objects, [Date], [parseFloat], [String], [Number].

    Conventions.
    - A JavaScript string is a sequence of code units; the development
      covers the code units below 256 (one [ascii] per code unit), which
      is closed under every string operation the module performs.
    - A JavaScript number is a binary64 float ([PrimFloat.float]).
    - An object used as a dictionary is an association list kept in
      creation order of its properties.
    - [async] functions are modelled by explicit state passing over the
      store they talk to; a rejected promise is an error result. *)

From Stdlib Require Import Bool Arith ZArith Lia List Ascii String.
From Stdlib Require Import Floats Sorting.Permutation Sorting.Sorted.
Import ListNotations.

Set Implicit Arguments.
Set Warnings "-register-all".

(* ===================================================================== *)
(** ** JavaScript strings *)
(* ===================================================================== *)

Module JSString.

Local Open Scope string_scope.
Local Open Scope N_scope.

(** Code unit of a character. *)
Definition code (c : ascii) : N := N_of_ascii c.

(** [WhiteSpace] and [LineTerminator] code points below 256: TAB, LF, VT,
    FF, CR, SP and NBSP.  This is the class [\s] of regular expressions
    and the class removed by [String.prototype.trim]. *)
Definition isWhiteSpace (c : ascii) : bool :=
  let n := code c in
  ((9 <=? n) && (n <=? 13)) || (n =? 32) || (n =? 160).

(** [\d]: ASCII digits only. *)
Definition isDigit (c : ascii) : bool :=
  let n := code c in (48 <=? n) && (n <=? 57).

Definition isLowerAZ (c : ascii) : bool :=
  let n := code c in (97 <=? n) && (n <=? 122).

(** Characters with a lowercase mapping among the first 256 code points:
    A-Z, and the Latin-1 capitals U+00C0..U+00DE except U+00D7. *)
Definition isUpper (c : ascii) : bool :=
  let n := code c in
  ((65 <=? n) && (n <=? 90))
  || ((192 <=? n) && (n <=? 222) && negb (n =? 215)).

Definition lowerChar (c : ascii) : ascii :=
  if isUpper c then ascii_of_N (code c + 32) else c.

(** [String.prototype.toLowerCase]. *)
Fixpoint toLowerCase (s : string) : string :=
  match s with
  | EmptyString => EmptyString
  | String c r => String (lowerChar c) (toLowerCase r)
  end.

(** [String.prototype.trimStart]. *)
Fixpoint trimStart (s : string) : string :=
  match s with
  | EmptyString => EmptyString
  | String c r => if isWhiteSpace c then trimStart r else s
  end.

(** [String.prototype.trimEnd]: a white space character is dropped when
    nothing but white space follows it. *)
Fixpoint trimEnd (s : string) : string :=
  match s with
  | EmptyString => EmptyString
  | String c r =>
      match trimEnd r with
      | EmptyString => if isWhiteSpace c then EmptyString else String c EmptyString
      | r' => String c r'
      end
  end.

(** [String.prototype.trim]. *)
Definition trim (s : string) : string := trimEnd (trimStart s).

(** [s.replace(/\s+/g, by)]: every maximal run of white space becomes one
    copy of [by]; [inRun] tells that the previous character was white
    space. *)
Fixpoint replaceWhiteSpaceRuns (by_ : string) (inRun : bool) (s : string) : string :=
  match s with
  | EmptyString => EmptyString
  | String c r =>
      if isWhiteSpace c
      then (if inRun then replaceWhiteSpaceRuns by_ true r
            else by_ ++ replaceWhiteSpaceRuns by_ true r)
      else String c (replaceWhiteSpaceRuns by_ false r)
  end.

(** [s.replace(/[...]/g, '')] for a character class: the characters of
    the class are deleted. *)
Fixpoint removeChars (inClass : ascii -> bool) (s : string) : string :=
  match s with
  | EmptyString => EmptyString
  | String c r =>
      if inClass c then removeChars inClass r
      else String c (removeChars inClass r)
  end.

(** Every character of the string satisfies [p]. *)
Fixpoint allChars (p : ascii -> bool) (s : string) : bool :=
  match s with
  | EmptyString => true
  | String c r => p c && allChars p r
  end.

(** [String.prototype.startsWith] for a one-character search string. *)
Definition startsWithChar (c : ascii) (s : string) : bool :=
  match s with
  | String d _ => Ascii.eqb c d
  | EmptyString => false
  end.

(** [s.includes(sub)]. *)
Fixpoint includes (sub s : string) : bool :=
  String.prefix sub s ||
  match s with
  | EmptyString => false
  | String _ r => includes sub r
  end.

(** [s.split(sep)] for a one-character separator. *)
Fixpoint splitOn (sep : ascii) (cur : string) (s : string) : list string :=
  match s with
  | EmptyString => [cur]
  | String c r =>
      if Ascii.eqb c sep then cur :: splitOn sep EmptyString r
      else splitOn sep (cur ++ String c EmptyString) r
  end.

Definition split (sep : ascii) (s : string) : list string :=
  splitOn sep EmptyString s.

End JSString.

(* ===================================================================== *)
(** ** Header normalization, shared by both copies of the parser *)
(* ===================================================================== *)

Module Normalizer.
Import JSString.
Local Open Scope string_scope.

(** The class [[a-z0-9_]]. *)
Definition isKeyChar (c : ascii) : bool :=
  isLowerAZ c || isDigit c || Ascii.eqb c "_"%char.

(** [normalizeFieldName]:
    [fieldName.trim().toLowerCase().replace(/\s+/g, '_').replace(/[^a-z0-9_]/g, '')]. *)
Definition normalizeFieldName (fieldName : string) : string :=
  removeChars (fun c => negb (isKeyChar c))
    (replaceWhiteSpaceRuns "_" false
       (toLowerCase (trim fieldName))).

End Normalizer.

(* ===================================================================== *)
(** ** JavaScript numbers: binary64 *)
(* ===================================================================== *)

Module JSNumber.
Import JSString.
Local Open Scope string_scope.
Local Open Scope Z_scope.

Definition number := float.

Definition isNaN (x : number) : bool := PrimFloat.is_nan x.

Definition isFinite (x : number) : bool := PrimFloat.is_finite x.

(** The float nearest to an integer (ties to even). *)
Definition ofZ (z : Z) : number :=
  SF2Prim (binary_normalize prec emax z 0 false).

(** The float nearest to [m * 10^e10] for [0 <= m] (ties to even), with
    the sign given by [neg]: the value of a decimal literal. *)
Definition ofDecimal (neg : bool) (m e10 : Z) : number :=
  match m with
  | Zpos p =>
      if 0 <=? e10
      then SF2Prim (binary_normalize prec emax
                      (cond_Zopp neg (m * 10 ^ e10)) 0 false)
      else SF2Prim (SFdiv prec emax
                      (S754_finite neg p 0)
                      (S754_finite false (Z.to_pos (10 ^ (- e10))) 0))
  | _ => if neg then neg_zero else zero
  end.

(** The integer part of a finite number (rounding toward zero), as in
    [ToIntegerOrInfinity]; [None] for NaN and the infinities. *)
Definition truncate (x : number) : option Z :=
  match Prim2SF x with
  | S754_zero _ => Some 0
  | S754_finite s m e =>
      let a := if 0 <=? e then Z.pos m * 2 ^ e else Z.pos m / 2 ^ (- e) in
      Some (cond_Zopp s a)
  | _ => None
  end.

(** The value when the number is an integer. *)
Definition integerValue (x : number) : option Z :=
  match Prim2SF x with
  | S754_zero _ => Some 0
  | S754_finite s m e =>
      if 0 <=? e then Some (cond_Zopp s (Z.pos m * 2 ^ e))
      else if Z.pos m mod 2 ^ (- e) =? 0
           then Some (cond_Zopp s (Z.pos m / 2 ^ (- e)))
           else None
  | _ => None
  end.

(** *** Decimal digits *)

Definition digitChar (d : Z) : ascii := ascii_of_N (Z.to_N (48 + d)).

Fixpoint decimalLoop (fuel : nat) (z : Z) (acc : string) : string :=
  match fuel with
  | O => acc
  | S f =>
      let acc' := String (digitChar (z mod 10)) acc in
      if z / 10 =? 0 then acc' else decimalLoop f (z / 10) acc'
  end.

(** Decimal representation of a non-negative integer. *)
Definition decimal (z : Z) : string :=
  decimalLoop (S (Z.to_nat (Z.log2 z))) z EmptyString.

Definition digitValue (c : ascii) : Z := Z.of_N (code c) - 48.

(** Reads the longest prefix of decimal digits: the value accumulated
    onto [acc], the number of digits read added to [n], and the rest. *)
Fixpoint readDigits (acc n : Z) (s : string) : Z * Z * string :=
  match s with
  | String c r =>
      if isDigit c then readDigits (10 * acc + digitValue c) (n + 1) r
      else (acc, n, s)
  | EmptyString => (acc, n, s)
  end.

(** [Number(s)] for a string of decimal digits. *)
Definition numberOfDigits (s : string) : Z :=
  fst (fst (readDigits 0 0 s)).

Fixpoint stripTrailingZeros (fuel : nat) (s : Z) : Z :=
  match fuel with
  | O => s
  | S f => if (s mod 10 =? 0) && negb (s =? 0)
           then stripTrailingZeros f (s / 10) else s
  end.

Fixpoint zeros (n : nat) : string :=
  match n with
  | O => EmptyString
  | S k => String "0" (zeros k)
  end.

(** *** [Number::toString] (radix 10) *)

(** The least [j >= 1], up to the fuel, with [num * 10^j >= den]. *)
Fixpoint firstScale (fuel : nat) (j num den : Z) : Z :=
  match fuel with
  | O => j
  | S f => if den <=? num * 10 ^ j then j else firstScale f (j + 1) num den
  end.

(** For [x = num / den > 0], the [n0] with [10^(n0-1) <= x < 10^n0]. *)
Definition decimalExponent (num den : Z) : Z :=
  if den <=? num then Z.of_nat (String.length (decimal (num / den)))
  else 1 - firstScale 400 1 num den.

(** The candidates with [k] digits around [x = num / den]: the integer
    [s] nearest to [x / 10^(n0 - k)] among those whose value
    [s * 10^(n0 - k)] rounds to [x], if one exists. *)
Definition digitsCandidate (x : number) (num den n0 k : Z) : option Z :=
  let sc := n0 - k in
  let a := if sc <=? 0 then num * 10 ^ (- sc) else num in
  let b := if sc <=? 0 then den else den * 10 ^ sc in
  let lo := a / b in
  let r := a mod b in
  let hi := lo + 1 in
  let okLo := PrimFloat.Leibniz.eqb (ofDecimal false lo sc) x in
  let okHi := PrimFloat.Leibniz.eqb (ofDecimal false hi sc) x in
  match okLo, okHi with
  | true, true =>
      if 2 * r <? b then Some lo
      else if b <? 2 * r then Some hi
      else if Z.even lo then Some lo else Some hi
  | true, false => Some lo
  | false, true => Some hi
  | false, false => None
  end.

(** The shortest digit string: tries [k], [k + 1], ... *)
Fixpoint shortestDigits (fuel : nat) (x : number) (num den n0 k : Z) : Z * Z :=
  match fuel with
  | O => (num * 10 ^ (k - n0) / den, k)
  | S f =>
      match digitsCandidate x num den n0 k with
      | Some s => (s, k)
      | None => shortestDigits f x num den n0 (k + 1)
      end
  end.

(** Steps 6 to 10 of [Number::toString]: [digits] are the [k] digits of
    [s] and the value is [s * 10^(n - k)]. *)
Definition formatDecimal (digits : string) (k n : Z) : string :=
  if (k <=? n) && (n <=? 21) then
    digits ++ zeros (Z.to_nat (n - k))
  else if (0 <? n) && (n <=? 21) then
    substring 0 (Z.to_nat n) digits ++ "." ++
    substring (Z.to_nat n) (Z.to_nat (k - n)) digits
  else if (-6 <? n) && (n <=? 0) then
    "0." ++ zeros (Z.to_nat (- n)) ++ digits
  else
    let e := n - 1 in
    let es := (if e <? 0 then "-" else "+") ++ decimal (Z.abs e) in
    if k =? 1 then digits ++ "e" ++ es
    else substring 0 1 digits ++ "." ++
         substring 1 (Z.to_nat (k - 1)) digits ++ "e" ++ es.

Definition toStringPositive (x : number) (m : positive) (e : Z) : string :=
  let num := if 0 <=? e then Z.pos m * 2 ^ e else Z.pos m in
  let den := if 0 <=? e then 1 else 2 ^ (- e) in
  let n0 := decimalExponent num den in
  let '(s0, k0) := shortestDigits 17 x num den n0 1 in
  let s := stripTrailingZeros 30 s0 in
  let digits0 := decimal s0 in
  let digits := decimal s in
  let n := n0 - k0 + Z.of_nat (String.length digits0) in
  formatDecimal digits (Z.of_nat (String.length digits)) n.

(** [Number::toString(x)], that is [String(x)] and the property key of
    a number. *)
Definition toString (x : number) : string :=
  match Prim2SF x with
  | S754_nan => "NaN"
  | S754_zero _ => "0"
  | S754_infinity s => if s then "-Infinity" else "Infinity"
  | S754_finite s m e =>
      (if s then "-" else "") ++ toStringPositive (PrimFloat.abs x) m e
  end.

(** *** [parseFloat] and [StringToNumber] *)

(** The longest prefix that is a [StrUnsignedDecimalLiteral] other than
    [Infinity]: digits with an optional fraction and an optional
    exponent.  Returns the mantissa, the decimal exponent and the rest of
    the string; [None] when no prefix is a literal. *)
Definition scanDecimal (s : string) : option (Z * Z * string) :=
  let '(ip, ni, r1) := readDigits 0 0 s in
  let '(m, nf, r2) :=
    match r1 with
    | String "." r =>
        let '(fp, nf, r') := readDigits ip 0 r in
        if (ni =? 0) && (nf =? 0) then (ip, 0, r1) else (fp, nf, r')
    | _ => (ip, 0, r1)
    end in
  if (ni + nf =? 0) then None
  else
    match r2 with
    | String c r =>
        if Ascii.eqb c "e" || Ascii.eqb c "E" then
          let '(neg, r') :=
            match r with
            | String "-" q => (true, q)
            | String "+" q => (false, q)
            | _ => (false, r)
            end in
          let '(ev, ne, r'') := readDigits 0 0 r' in
          if ne =? 0 then Some (m, - nf, r2)
          else Some (m, (if neg then - ev else ev) - nf, r'')
        else Some (m, - nf, r2)
    | EmptyString => Some (m, - nf, r2)
    end.

Definition readSign (s : string) : bool * string :=
  match s with
  | String "-" r => (true, r)
  | String "+" r => (false, r)
  | _ => (false, s)
  end.

(** [parseFloat(s)]: leading white space is skipped, the longest prefix
    that is a decimal literal is converted, whatever follows is ignored;
    NaN when no prefix is a literal. *)
Definition parseFloat (s : string) : number :=
  let '(neg, r) := readSign (trimStart s) in
  if String.prefix "Infinity" r
  then (if neg then neg_infinity else infinity)
  else match scanDecimal r with
       | Some (m, e10, _) => ofDecimal neg m e10
       | None => nan
       end.

(** Whether the whole of [s] is a decimal number: an optional sign, then
    digits with an optional fraction and exponent, and nothing else. *)
Definition isDecimalLiteral (s : string) : bool :=
  match scanDecimal (snd (readSign s)) with
  | Some (_, _, EmptyString) => true
  | _ => false
  end.

(** A canonical numeric string of an integer below [2^32 - 1]: the
    property keys an object lists first, in ascending order. *)
Definition arrayIndex (key : string) : option Z :=
  let '(v, n, r) := readDigits 0 0 key in
  match r with
  | EmptyString =>
      if (0 <? n) && String.eqb (decimal v) key && (v <? 2 ^ 32 - 1)
      then Some v else None
  | _ => None
  end.

End JSNumber.

(* ===================================================================== *)
(** ** JavaScript objects as dictionaries *)
(* ===================================================================== *)

Module JSObject.
Import JSNumber.
Local Open Scope string_scope.

Section Dictionary.
Variable V : Type.

(** Own properties in creation order. *)
Definition obj := list (string * V).

Fixpoint get (k : string) (o : obj) : option V :=
  match o with
  | [] => None
  | (k', v) :: r => if String.eqb k k' then Some v else get k r
  end.


(** [o[k] = v]: an existing property keeps its place, a new one is
    created last. *)
Fixpoint set (k : string) (v : V) (o : obj) : obj :=
  match o with
  | [] => [(k, v)]
  | (k', v') :: r =>
      if String.eqb k k' then (k, v) :: r else (k', v') :: set k v r
  end.

(** Insertion of an array-index property into the ascending list of the
    array-index properties. *)
Fixpoint insertIndex (i : Z) (e : string * V) (l : list (Z * (string * V)))
  : list (Z * (string * V)) :=
  match l with
  | [] => [(i, e)]
  | (j, e') :: r =>
      if (i <? j)%Z then (i, e) :: l else (j, e') :: insertIndex i e r
  end.

Fixpoint indexProps (o : obj) : list (Z * (string * V)) :=
  match o with
  | [] => []
  | (k, v) :: r =>
      match arrayIndex k with
      | Some i => insertIndex i (k, v) (indexProps r)
      | None => indexProps r
      end
  end.

Definition namedProps (o : obj) : obj :=
  filter (fun e => match arrayIndex (fst e) with
                   | Some _ => false | None => true end) o.

(** [Object.entries(o)], also the order of [for ... in] and of object
    spread ([OrdinaryOwnPropertyKeys]): the array-index keys in ascending
    numeric order, then the other keys in creation order. *)
Definition entries (o : obj) : obj :=
  (map snd (indexProps o) ++ namedProps o)%list.

(** [{ ...target, ...source }]: the properties of [source] are defined
    on [target] in the order of [entries]. *)
Definition spread (target source : obj) : obj :=
  fold_left (fun acc e => set (fst e) (snd e) acc) (entries source) target.

End Dictionary.

End JSObject.

(* ===================================================================== *)
(** ** JavaScript values and [Date] *)
(* ===================================================================== *)

Module JSValue.
Import JSString JSNumber JSObject.
Local Open Scope string_scope.
Local Open Scope Z_scope.

(** A [Date] holds a time value.  A date built from calendar fields
    ([new Date(y, m, d)], [setDate]) is kept as its local time [t] in
    milliseconds, and stands for the time value [UTC(t)] of the host's
    time zone; a date built from a time stamp is kept as that time
    value. *)
Inductive date : Type :=
| LocalDate (t : Z)
| Instant (tv : Z)
| InvalidDate.

(** The values a cell, a record field or a filter may hold. *)
Inductive value : Type :=
| VUndefined
| VNull
| VBool (b : bool)
| VNum (x : number)
| VStr (s : string)
| VDate (d : date)
| VObject (props : list (string * value)).

Definition record := obj value.

(** What the host decides: the time zone, the formats [Date.parse]
    accepts beyond the code's own pattern, and how a date prints. *)
Record Host : Type := {
  utcOfLocal : Z -> Z;
  localOfUtc : Z -> Z;
  dateParse : string -> option Z;
  dateToString : date -> string
}.

Definition msPerDay : Z := 86400000.

(** Days from 1970-01-01 to the civil date [y]-[m]-[d], [m] in 1..12. *)
Definition daysFromCivil (y m d : Z) : Z :=
  let y' := if m <=? 2 then y - 1 else y in
  let era := y' / 400 in
  let yoe := y' - era * 400 in
  let mp := if 2 <? m then m - 3 else m + 9 in
  let doy := (153 * mp + 2) / 5 + d - 1 in
  let doe := yoe * 365 + yoe / 4 - yoe / 100 + doy in
  era * 146097 + doe - 719468.

(** The civil date (year, month in 1..12, day) of a day number. *)
Definition civilFromDays (z : Z) : Z * Z * Z :=
  let z' := z + 719468 in
  let era := z' / 146097 in
  let doe := z' - era * 146097 in
  let yoe := (doe - doe / 1460 + doe / 36524 - doe / 146096) / 365 in
  let doy := doe - (365 * yoe + yoe / 4 - yoe / 100) in
  let mp := (5 * doy + 2) / 153 in
  let d := doy - (153 * mp + 2) / 5 + 1 in
  let m := if mp <? 10 then mp + 3 else mp - 9 in
  (yoe + era * 400 + (if m <=? 2 then 1 else 0), m, d).

(** [MakeDay(year, month, date)] with a 0-based month: months overflow
    into years, and the date counts from the first of the month. *)
Definition MakeDay (year month dt : Z) : Z :=
  daysFromCivil (year + month / 12) (month mod 12 + 1) 1 + dt - 1.

(** [TimeClip]. *)
Definition timeClip (tv : Z) : date :=
  if Z.abs tv <=? 8640000000000000 then Instant tv else InvalidDate.

(** [new Date(x)] for a number: the time value [x] with its fraction
    dropped, invalid outside the range of a time value. *)
Definition newDateOfNumber (x : number) : date :=
  match truncate x with
  | Some tv => timeClip tv
  | None => InvalidDate
  end.

(** [new Date(year, monthIndex, day)] for integers: local midnight of
    that day; a year in 0..99 means 1900 + year. *)
Definition newDateYMD (year monthIndex day : Z) : date :=
  let yr := if (0 <=? year) && (year <=? 99) then 1900 + year else year in
  LocalDate (MakeDay yr monthIndex day * msPerDay).

(** [new Date(s)] for a string. *)
Definition newDateOfString (h : Host) (s : string) : date :=
  match dateParse h s with
  | Some tv => timeClip tv
  | None => InvalidDate
  end.

(** The local time of a date. *)
Definition localTime (h : Host) (d : date) : option Z :=
  match d with
  | LocalDate t => Some t
  | Instant tv => Some (localOfUtc h tv)
  | InvalidDate => None
  end.

(** [d.getTime()]; [None] is NaN. *)
Definition getTime (h : Host) (d : date) : option Z :=
  match d with
  | LocalDate t => Some (utcOfLocal h t)
  | Instant tv => Some tv
  | InvalidDate => None
  end.

Definition isValidDate (d : date) : bool :=
  match d with InvalidDate => false | _ => true end.

(** [d.getDate()]: the day of the month in local time; NaN for an
    invalid date. *)
Definition getDate (h : Host) (d : date) : number :=
  match localTime h d with
  | Some t => ofZ (snd (civilFromDays (t / msPerDay)))
  | None => nan
  end.

(** [d.setDate(dt)]: the day of the month is replaced by the integer
    part of [dt], the year, the month and the time within the day are
    kept, and days outside the month carry over. *)
Definition setDate (h : Host) (d : date) (dt : number) : date :=
  match localTime h d, truncate dt with
  | Some t, Some n =>
      let '(y, m, _) := civilFromDays (t / msPerDay) in
      LocalDate (MakeDay y (m - 1) n * msPerDay + t mod msPerDay)
  | _, _ => InvalidDate
  end.

(** The calendar year in which a local time falls. *)
Definition yearOfLocal (t : Z) : Z := fst (fst (civilFromDays (t / msPerDay))).

(** [ToBoolean]. *)
Definition truthy (v : value) : bool :=
  match v with
  | VUndefined | VNull => false
  | VBool b => b
  | VNum x => negb (isNaN x || PrimFloat.is_zero x)
  | VStr s => negb (String.eqb s "")
  | VDate _ | VObject _ => true
  end.

(** [a || b]. *)
Definition orElse (a b : value) : value := if truthy a then a else b.

(** [String(v)]. *)
Definition ToString (h : Host) (v : value) : string :=
  match v with
  | VUndefined => "undefined"
  | VNull => "null"
  | VBool b => if b then "true" else "false"
  | VNum x => toString x
  | VStr s => s
  | VDate d => dateToString h d
  | VObject _ => "[object Object]"
  end.

(** [StringToNumber] on decimal input: white space is trimmed, the empty
    string is 0, and the whole of what remains has to be a decimal
    literal or [Infinity]. *)
Definition stringToNumber (s : string) : number :=
  let t := trim s in
  if String.eqb t "" then zero
  else
    let '(neg, r) := readSign t in
    if String.eqb r "Infinity" then (if neg then neg_infinity else infinity)
    else match scanDecimal r with
         | Some (m, e10, EmptyString) => ofDecimal neg m e10
         | _ => nan
         end.

(** [Number(v)] for the values of the model other than strings in a
    radix notation. *)
Definition ToNumber (h : Host) (v : value) : number :=
  match v with
  | VUndefined => nan
  | VNull => zero
  | VBool b => if b then one else zero
  | VNum x => x
  | VStr s => stringToNumber s
  | VDate d => match getTime h d with Some tv => ofZ tv | None => nan end
  | VObject _ => nan
  end.

(** [o[k]] on a record: [undefined] when the property is missing. *)
Definition getProp (k : string) (o : record) : value :=
  match get k o with Some v => v | None => VUndefined end.

End JSValue.

(* ===================================================================== *)
(** ** The parser as it stands in [src/app/root.tsx] *)
(* ===================================================================== *)

Module Root.
Import JSString JSNumber JSObject JSValue.
Local Open Scope string_scope.

(** The pattern [/^\d{1,2}\/\d{1,2}\/\d{4}$/]. *)
Definition digitsBetween (lo hi : nat) (s : string) : bool :=
  allChars isDigit s && (lo <=? String.length s)%nat && (String.length s <=? hi)%nat.

Definition matchesMDY (s : string) : bool :=
  match split "/" s with
  | [a; b; c] => digitsBetween 1 2 a && digitsBetween 1 2 b && digitsBetween 4 4 c
  | _ => false
  end.

(** [const [month, day, year] = s.split('/').map(Number);
     return new Date(year, month - 1, day)]. *)
Definition dateOfMDY (s : string) : date :=
  match map numberOfDigits (split "/" s) with
  | [month; day; year] => newDateYMD year (month - 1) day
  | _ => InvalidDate
  end.

(** [new Date(1899, 11, 30)]. *)
Definition excelEpoch : date := newDateYMD 1899 11 30.

(** The branch for serial dates:
    [resultDate.setDate(excelEpoch.getDate() + dateInput)]. *)
Definition dateOfSerial (h : Host) (dateInput : number) : date :=
  setDate h excelEpoch (getDate h excelEpoch + dateInput)%float.

(** [parseDate] of root.tsx (lines 122-160); [None] is [null]. *)
Definition parseDate (h : Host) (dateInput : value) : option date :=
  match dateInput with
  | VNull | VUndefined => None
  | VNum x =>
      if ((1000 <? x) && (x <? 100000))%float then Some (dateOfSerial h x)
      else if (x <? 10000000000)%float then Some (newDateOfNumber (x * 1000)%float)
      else Some (newDateOfNumber x)
  | VStr s =>
      if matchesMDY s then Some (dateOfMDY s)
      else
        let d := newDateOfString h s in
        if isValidDate d then Some d else None
  | _ => None
  end.

(** [deriveLevelOfCare] (lines 208-220). *)
Definition deriveLevelOfCare (revenueCode : string) : string :=
  if String.eqb revenueCode "" then "UNKNOWN"
  else
    let code := trim revenueCode in
    if startsWithChar "1" code then "IOP"
    else if startsWithChar "2" code then "PHP"
    else if startsWithChar "3" code then "RES"
    else if startsWithChar "4" code then "DETOX"
    else "OTHER".

(** *** Batch persistence *)

(** What [saveDataToDatabase] writes to the console. *)
Inductive logLine : Type :=
| StartingSave (total : nat)
| NoDataToSave
| SavingBatch (batchNumber totalBatches size : nat)
| ErrorSavingBatch (batchNumber : nat)
| AttemptingIndividually
| FailedIndividualRecord
| ProblematicRecord (r : record)
| SaveComplete (savedCount total : nat).

(** What it does, in order: console lines and calls to the store with
    their outcome ([true]: the promise resolved). *)
Inductive event : Type :=
| Log (l : logLine)
| CreateMany (batch : list record) (ok : bool)
| Create (r : record) (ok : bool).

Definition batchSize : nat := 50.

(** [data.slice(i, j)]. *)
Definition slice (A : Type) (i j : nat) (data : list A) : list A :=
  firstn (j - i) (skipn i data).

Section Persister.

(** The record store behind [db.claimRecord]: a state, and for each
    operation whether it succeeds and the state it leaves. *)
Variable DB : Type.
Variable createMany : list record -> DB -> bool * DB.
Variable create : record -> DB -> bool * DB.

(** The two copies of [saveDataToDatabase] differ in what they send
    (the fixed copy normalizes the date fields of each record first) and
    in whether the record that failed is printed. *)
Variable prepare : record -> record.
Variable printRecord : bool.

Record world : Type := { store : DB; trace : list event }.

Definition emit (e : event) (w : world) : world :=
  {| store := store w; trace := (trace w ++ [e])%list |}.

(** The loop over the records of a batch that failed as a whole. *)
Fixpoint saveIndividually (batch : list record) (savedCount : nat) (w : world)
  : nat * world :=
  match batch with
  | [] => (savedCount, w)
  | r :: rest =>
      let '(ok, db') := create r (store w) in
      let w1 := emit (Create r ok) {| store := db'; trace := trace w |} in
      if ok then saveIndividually rest (S savedCount) w1
      else
        let w2 := emit (Log FailedIndividualRecord) w1 in
        let w3 := if printRecord then emit (Log (ProblematicRecord r)) w2 else w2 in
        saveIndividually rest savedCount w3
  end.

(** One iteration of [for (let i = 0; i < data.length; i += batchSize)]. *)
Definition saveBatch (data : list record) (i : nat) (savedCount : nat) (w : world)
  : nat * world :=
  let batchNumber := (i / batchSize + 1)%nat in
  let totalBatches := ((List.length data + batchSize - 1) / batchSize)%nat in
  let batch := slice i (i + batchSize) data in
  let w1 := emit (Log (SavingBatch batchNumber totalBatches (List.length batch))) w in
  let processedBatch := map prepare batch in
  let '(ok, db') := createMany processedBatch (store w1) in
  let w2 := emit (CreateMany processedBatch ok) {| store := db'; trace := trace w1 |} in
  if ok then ((savedCount + List.length batch)%nat, w2)
  else
    let w3 := emit (Log (ErrorSavingBatch batchNumber)) w2 in
    let w4 := emit (Log AttemptingIndividually) w3 in
    saveIndividually processedBatch savedCount w4.

Fixpoint saveLoop (fuel : nat) (data : list record) (i : nat) (savedCount : nat)
  (w : world) : nat * world :=
  match fuel with
  | O => (savedCount, w)
  | S f =>
      if (i <? List.length data)%nat then
        let '(saved', w') := saveBatch data i savedCount w in
        saveLoop f data (i + batchSize) saved' w'
      else (savedCount, w)
  end.

(** [saveDataToDatabase(data)]: the function has no [throw] of its own
    and every call to the store is inside a [try], so the promise
    resolves; the result is the store and what was done. *)
Definition saveDataWith (data : list record) (db : DB) : world :=
  let w0 := emit (Log (StartingSave (List.length data))) {| store := db; trace := [] |} in
  if (List.length data =? 0)%nat then emit (Log NoDataToSave) w0
  else
    let '(savedCount, w) := saveLoop (List.length data) data 0 0 w0 in
    emit (Log (SaveComplete savedCount (List.length data))) w.

End Persister.

(** [saveDataToDatabase] of root.tsx (lines 371-418): batches are sent
    as they are, and a failing record is not printed. *)
Definition saveDataToDatabase (DB : Type)
  (createMany : list record -> DB -> bool * DB)
  (create : record -> DB -> bool * DB)
  (data : list record) (db : DB) : world DB :=
  saveDataWith createMany create (fun r => r) false data db.

(** *** The aggregation engine *)

Definition levelsOfCare : list string := ["DETOX"; "RES"; "PHP"; "IOP"; "OTHER"].

(** [validAmounts.reduce((acc, val) => acc + val, 0)]. *)
Definition sum (validAmounts : list number) : number :=
  fold_left PrimFloat.add validAmounts zero.

Definition isNegativeZero (x : number) : bool :=
  PrimFloat.is_zero x && PrimFloat.get_sign x.

(** One step of [Math.min]: NaN wins, then [-0] is below [+0]. *)
Definition min2 (lowest x : number) : number :=
  if isNaN lowest || isNaN x then nan
  else if isNegativeZero x && PrimFloat.is_zero lowest then x
  else if (x <? lowest)%float then x else lowest.

Definition max2 (highest x : number) : number :=
  if isNaN highest || isNaN x then nan
  else if isNegativeZero highest && PrimFloat.is_zero x then x
  else if (highest <? x)%float then x else highest.

(** [Math.min(...l)] and [Math.max(...l)]. *)
Definition mathMin (l : list number) : number := fold_left min2 l infinity.
Definition mathMax (l : list number) : number := fold_left max2 l neg_infinity.

(** [[...l].sort((a, b) => a - b)].  The array is sorted by stable
    insertion: an element goes before the first one the comparator puts
    it strictly before.  Every stable sort returns this array when the
    comparator is consistent, which it is unless an amount is NaN. *)
Fixpoint insertSorted (x : number) (l : list number) : list number :=
  match l with
  | [] => [x]
  | y :: r => if (x - y <? 0)%float then x :: l else y :: insertSorted x r
  end.

Definition sortAscending (l : list number) : list number :=
  fold_left (fun acc x => insertSorted x acc) l [].

(** [sorted[i]] of a number array in an arithmetic expression: a missing
    element is [undefined], which is NaN there. *)
Definition at_ (sorted : list number) (i : nat) : number := nth i sorted nan.

(** Lines 481-487. *)
Definition median (validAmounts : list number) : number :=
  let sorted := sortAscending validAmounts in
  let middle := (List.length sorted / 2)%nat in
  if (0 <? List.length sorted)%nat then
    if (List.length sorted mod 2 =? 0)%nat
    then ((at_ sorted (middle - 1) + at_ sorted middle) / 2)%float
    else at_ sorted middle
  else zero.

(** Lines 490-493: [frequency[val] = (frequency[val] || 0) + 1], the
    number being turned into its property key. *)
Definition tally (frequency : obj Z) (val : number) : obj Z :=
  let k := toString val in
  set k ((match get k frequency with Some n => n | None => 0 end) + 1)%Z frequency.

Definition frequencyOf (validAmounts : list number) : obj Z :=
  fold_left tally validAmounts [].

(** Lines 495-502: the loop over [Object.entries(frequency)]; the state
    is [(mode, maxFrequency)]. *)
Definition modeStep (st : number * Z) (e : string * Z) : number * Z :=
  if (snd st <? snd e)%Z then (parseFloat (fst e), snd e) else st.

Definition mode (validAmounts : list number) : number :=
  fst (fold_left modeStep (entries (frequencyOf validAmounts)) (zero, 0%Z)).

(** The object literal of a summary, the filters spread last. *)
Definition summary (levelOfCare : string) (recordCount : Z)
  (average min max med mod_ : number) (filters : record) : record :=
  spread
    [ ("levelOfCare", VStr levelOfCare);
      ("recordCount", VNum (ofZ recordCount));
      ("averageAllowedAmount", VNum average);
      ("minAllowedAmount", VNum min);
      ("maxAllowedAmount", VNum max);
      ("medianAllowedAmount", VNum med);
      ("modeAllowedAmount", VNum mod_) ]
    filters.

Definition zeroSummary (levelOfCare : string) (recordCount : Z) (filters : record) : record :=
  summary levelOfCare recordCount zero zero zero zero zero filters.

(** The statistics of lines 475-514. *)
Definition computedSummary (levelOfCare : string) (count : Z)
  (validAmounts : list number) (filters : record) : record :=
  let n := List.length validAmounts in
  let average := if (0 <? n)%nat then (sum validAmounts / ofZ (Z.of_nat n))%float else zero in
  let min := if (0 <? n)%nat then mathMin validAmounts else zero in
  let max := if (0 <? n)%nat then mathMax validAmounts else zero in
  summary levelOfCare count average min max (median validAmounts) (mode validAmounts) filters.

(** The compound key of the [upsert] (lines 521-530). *)
Definition metricsKey (levelOfCare : string) (filters : record) : record :=
  [ ("levelOfCare", VStr levelOfCare);
    ("stateTreatedAt", orElse (getProp "stateTreatedAt" filters) (VStr ""));
    ("payerName", orElse (getProp "payerName" filters) (VStr ""));
    ("payerClass", orElse (getProp "payerClass" filters) (VStr ""));
    ("serviceYear", orElse (getProp "serviceYear" filters) (VNum zero));
    ("paymentReceivedYear", orElse (getProp "paymentReceivedYear" filters) (VNum zero)) ].

Section Aggregation.

(** The stores behind [db.claimRecord] and [db.calculatedMetrics].
    [None] and [false] stand for a rejected promise.  [findMany] selects
    [allowedAmount], a number or [null]. *)
Variable DB : Type.
Variable count : record -> DB -> option Z * DB.
Variable findMany : record -> DB -> option (list (option number)) * DB.
Variable upsert : record -> record -> record -> DB -> bool * DB.

(** The body of [for (const levelOfCare of levelsOfCare)]: the summary
    pushed on [results], and the store afterwards. *)
Definition bucketMetrics (filters : record) (levelOfCare : string) (db : DB)
  : record * DB :=
  let whereClause := spread [("levelOfCare", VStr levelOfCare)] filters in
  let '(counted, db1) := count whereClause db in
  let cnt := match counted with Some n => n | None => 0%Z end in
  if (cnt =? 0)%Z then (zeroSummary levelOfCare 0 filters, db1)
  else
    let '(found, db2) := findMany whereClause db1 in
    match found with
    | Some allowedAmounts =>
        let validAmounts :=
          flat_map (fun a => match a with Some x => [x] | None => [] end)
                   allowedAmounts in
        let metrics := computedSummary levelOfCare cnt validAmounts filters in
        let '(_, db3) := upsert (metricsKey levelOfCare filters) metrics metrics db2 in
        (metrics, db3)
    | None => (zeroSummary levelOfCare cnt filters, db2)
    end.

(** [calculateMetrics(filters)] (lines 423-555): every statement that
    can throw is inside a [try], so the promise resolves with
    [results]. *)
Definition calculateMetrics (filters : record) (db : DB) : list record * DB :=
  fold_left
    (fun (st : list record * DB) levelOfCare =>
       let '(m, db') := bucketMetrics filters levelOfCare (snd st) in
       ((fst st ++ [m])%list, db'))
    levelsOfCare ([], db).

End Aggregation.

End Root.

(* ===================================================================== *)
(** ** [src/app/utils/fixedFileParser.server.ts] *)
(* ===================================================================== *)

(** The module the routes import.  Its file restates the normalizer, the
    header table, [parseDate], [cleanRow] and [saveDataToDatabase]; the
    rest ([deriveLevelOfCare], the readers, [calculateMetrics]) is, as
    its own comment says, the previous file unchanged. *)
Module Fixed.
Import JSString JSNumber JSObject JSValue Normalizer.
Local Open Scope string_scope.

(** [FIELD_MAPPING] (lines 21-47). *)
Definition FIELD_MAPPING : obj string :=
  [ ("practice_name", "practiceName");
    ("charge", "charge");
    ("cpt_code", "cptCode");
    ("revenue_code", "revenueCode");
    ("loc", "levelOfCare");
    ("charge_amount", "chargeAmount");
    ("payment", "payment");
    ("allowed_amount", "allowedAmount");
    ("primary_group", "primaryGroup");
    ("claim_primary_member_id", "claimPrimaryID");
    ("payer_name", "payerName");
    ("payer_group", "payerGroup");
    ("payment_total_paid", "paymentTotal");
    ("payment_received", "paymentReceived");
    ("payment_entered", "paymentEntered");
    ("charge_from_date", "chargeFromDate");
    ("charge_to_date", "chargeToDate");
    ("primary_ins_zip", "primaryInsZip");
    ("primary_ins_city", "primaryInsCity");
    ("primary_ins_state", "primaryInsState");
    ("primary_ins_addr_1", "primaryInsAddr1");
    ("patient_zip", "patientZip");
    ("patient_city", "patientCity");
    ("patient_state", "patientState");
    ("patient_address_1", "patientAddress1") ].

(** [FIELD_MAPPING[normalizedHeader]], as the property key under which
    [cleanRow] stores the value.  The table is an object literal, so the
    two properties it inherits whose names are possible normalized
    headers are found too; their values are a function and an object,
    which are truthy, belong to none of the three field sets, and become
    these keys. *)
Definition lookupField (normalizedHeader : string) : option string :=
  match get normalizedHeader FIELD_MAPPING with
  | Some dbField => Some dbField
  | None =>
      if String.eqb normalizedHeader "constructor"
      then Some "function Object() { [native code] }"
      else if String.eqb normalizedHeader "__proto__"
      then Some "[object Object]"
      else None
  end.

Definition numericFields : list string :=
  ["chargeAmount"; "payment"; "allowedAmount"; "paymentTotal"].

Definition dateFields : list string :=
  ["paymentReceived"; "paymentEntered"; "chargeFromDate"; "chargeToDate"].

Definition stringFields : list string :=
  [ "practiceName"; "charge"; "cptCode"; "revenueCode"; "levelOfCare";
    "primaryGroup"; "claimPrimaryID"; "payerName"; "payerGroup"; "primaryInsZip";
    "primaryInsCity"; "primaryInsState"; "primaryInsAddr1"; "patientZip";
    "patientCity"; "patientState"; "patientAddress1"; "payerClass"; "employerName";
    "prefix"; "groupPolicy" ].

(** [set.has(k)]. *)
Definition setHas (fields : list string) (k : string) : bool :=
  existsb (String.eqb k) fields.

(** [parseDate] (lines 53-101); [None] is [null]. *)
Definition parseDate (h : Host) (dateInput : value) : option date :=
  match dateInput with
  | VNull | VUndefined => None
  | VDate d => if isValidDate d then Some d else None
  | VNum x =>
      if (x <? 1000)%float then None
      else if ((1000 <? x) && (x <? 100000))%float then Some (Root.dateOfSerial h x)
      else if (x <? 10000000000)%float then Some (newDateOfNumber (x * 1000)%float)
      else Some (newDateOfNumber x)
  | VStr s =>
      let trimmedInput := trim s in
      if String.eqb trimmedInput "" then None
      else if Root.matchesMDY trimmedInput then Some (Root.dateOfMDY trimmedInput)
      else
        let parsedDate := newDateOfString h trimmedInput in
        if isValidDate parsedDate then Some parsedDate else None
  | _ => None
  end.

(** The class [[\$,]]. *)
Definition isCurrencyMark (c : ascii) : bool :=
  Ascii.eqb c "$" || Ascii.eqb c ",".

(** Lines 129-138: a date field. *)
Definition coerceDate (h : Host) (v : value) : value :=
  match parseDate h v with
  | Some d => VDate d
  | None => VNull
  end.

(** Lines 139-146: a numeric field. *)
Definition coerceNumber (h : Host) (v : value) : value :=
  let converted :=
    match v with
    | VStr s => VNum (parseFloat (removeChars isCurrencyMark s))
    | VNull | VUndefined => v
    | _ => VNum (ToNumber h v)
    end in
  if isNaN (ToNumber h converted) then VNull else converted.

(** Lines 147-154: a string field. *)
Definition coerceString (h : Host) (v : value) : value :=
  match v with
  | VNull | VUndefined => v
  | _ => VStr (ToString h v)
  end.

Definition coerce (h : Host) (dbField : string) (v : value) : value :=
  if setHas dateFields dbField then coerceDate h v
  else if setHas numericFields dbField then coerceNumber h v
  else if setHas stringFields dbField then coerceString h v
  else v.

(** The loop of [cleanRow] (lines 122-159). *)
Definition cleanFields (h : Host) (row : record) (headers : list string) : record :=
  fold_left
    (fun cleanedRow originalHeader =>
       match lookupField (normalizeFieldName originalHeader) with
       | Some dbField =>
           set dbField (coerce h dbField (getProp originalHeader row)) cleanedRow
       | None => cleanedRow
       end)
    headers [].

(** Lines 161-166. *)
Definition resolveLevelOfCare (h : Host) (cleanedRow : record) : record :=
  let levelOfCare := getProp "levelOfCare" cleanedRow in
  let revenueCode := getProp "revenueCode" cleanedRow in
  if negb (truthy levelOfCare) && truthy revenueCode then
    set "levelOfCare" (VStr (Root.deriveLevelOfCare (ToString h revenueCode))) cleanedRow
  else if negb (truthy levelOfCare) then
    set "levelOfCare" (VStr "UNKNOWN") cleanedRow
  else cleanedRow.

(** [cleanRow] (lines 107-169). *)
Definition cleanRow (h : Host) (row : record) (headers : list string) : record :=
  resolveLevelOfCare h (cleanFields h row headers).

(** Lines 197-212: the copy of a record sent to the store, its date
    fields forced to a [Date] or [null]. *)
Definition processRecord (r : record) : record :=
  fold_left
    (fun processedRecord field =>
       match getProp field processedRecord with
       | VUndefined => processedRecord
       | VDate d => set field (VDate d) processedRecord
       | _ => set field VNull processedRecord
       end)
    dateFields (spread [] r).

(** [saveDataToDatabase] (lines 176-243). *)
Definition saveDataToDatabase (DB : Type)
  (createMany : list record -> DB -> bool * DB)
  (create : record -> DB -> bool * DB)
  (data : list record) (db : DB) : Root.world DB :=
  Root.saveDataWith createMany create processRecord true data db.

End Fixed.

(* ===================================================================== *)
(** ** A record store *)
(* ===================================================================== *)

(** The stores are outside the repository; [prisma/schema.prisma] fixes
    their columns and the unique key of [CalculatedMetrics].  This is a
    reference store for the operations the engine issues, following the
    client's contract: [count] and [findMany] select by equality of
    columns, [upsert] updates the row its unique [where] selects and
    creates one otherwise, a column left out of the data is NULL, NULL
    is equal to nothing, and the unique constraint is that of
    PostgreSQL (rows with a NULL key column never conflict). *)
Module Store.
Import JSString JSNumber JSObject JSValue.
Local Open Scope string_scope.

Record store : Type := {
  claimRecords : list record;
  calculatedMetrics : list record
}.

(** A column of a row; a missing column is NULL. *)
Definition column (c : string) (row : record) : value :=
  match getProp c row with
  | VUndefined => VNull
  | v => v
  end.

(** SQL equality on scalars: NULL equals nothing. *)
Definition sqlEq (a b : value) : bool :=
  match a, b with
  | VStr s, VStr t => String.eqb s t
  | VNum x, VNum y => (x =? y)%float
  | VBool p, VBool q => Bool.eqb p q
  | _, _ => false
  end.

(** [where: { column: value, ... }] with equality filters. *)
Definition whereMatches (whereClause row : record) : bool :=
  forallb (fun e => sqlEq (column (fst e) row) (snd e)) whereClause.

Definition count (whereClause : record) (st : store) : option Z * store :=
  (Some (Z.of_nat (List.length (filter (whereMatches whereClause) (claimRecords st)))), st).

Definition findMany (whereClause : record) (st : store)
  : option (list (option number)) * store :=
  (Some (map (fun row => match getProp "allowedAmount" row with
                         | VNum x => Some x
                         | _ => None
                         end)
             (filter (whereMatches whereClause) (claimRecords st))), st).

(** [@@unique([levelOfCare, stateTreatedAt, payerName, payerClass,
    serviceYear, paymentReceivedYear])]. *)
Definition keyColumns : list string :=
  [ "levelOfCare"; "stateTreatedAt"; "payerName"; "payerClass";
    "serviceYear"; "paymentReceivedYear" ].

(** The row selected by a value for every key column. *)
Definition selects (key row : record) : bool :=
  forallb (fun c => sqlEq (column c row) (getProp c key)) keyColumns.

(** The row stored for [data]: properties that are [undefined] are not
    written. *)
Definition rowOf (data : record) : record :=
  filter (fun e => match snd e with VUndefined => false | _ => true end) data.

Definition updateRow (data row : record) : record :=
  spread row (rowOf data).

(** Two rows conflict when every key column is non-NULL and equal. *)
Definition conflicts (a b : record) : bool := selects a b.

Fixpoint updateFirst (key update : record) (rows : list record)
  : option (list record) :=
  match rows with
  | [] => None
  | row :: rest =>
      if selects key row then Some (updateRow update row :: rest)
      else match updateFirst key update rest with
           | Some rest' => Some (row :: rest')
           | None => None
           end
  end.

Definition upsert (key update create : record) (st : store) : bool * store :=
  match updateFirst key update (calculatedMetrics st) with
  | Some rows =>
      (true, {| claimRecords := claimRecords st; calculatedMetrics := rows |})
  | None =>
      if existsb (conflicts (rowOf create)) (calculatedMetrics st)
      then (false, st)
      else (true, {| claimRecords := claimRecords st;
                     calculatedMetrics := (calculatedMetrics st ++ [rowOf create])%list |})
  end.

(** The engine over this store. *)
Definition calculateMetrics (filters : record) (st : store) : list record * store :=
  Root.calculateMetrics count findMany upsert filters st.

(** The rows of the summary table for a bucket. *)
Definition rowsOfBucket (levelOfCare : string) (st : store) : list record :=
  filter (fun row => sqlEq (column "levelOfCare" row) (VStr levelOfCare))
         (calculatedMetrics st).

End Store.

(* ===================================================================== *)
(** ** The specification's wording *)
(* ===================================================================== *)

(** Definitions that follow the words of the specification rather than
    the code, for the places where the two are compared. *)
Module Spec.
Import JSString JSNumber JSObject JSValue.
Local Open Scope string_scope.

(** "Derive from the first character of the stringified revenue code
    using an ordered rule table: prefix 1 is IOP, 2 is PHP, 3 is RES,
    4 is DETOX, any other prefix is OTHER." *)
Definition levelOfFirstChar (stringified : string) : string :=
  match stringified with
  | String "1" _ => "IOP"
  | String "2" _ => "PHP"
  | String "3" _ => "RES"
  | String "4" _ => "DETOX"
  | _ => "OTHER"
  end.

(** The resolution order of the calendar-date coercion: null for a
    missing input; a serial date for a number strictly between 1000 and
    100000; seconds for any other number below 10,000,000,000;
    milliseconds for any other number; month/day/year for a string of
    that pattern; null for an empty or blank string.  The outer [None]
    marks the inputs the order leaves open. *)
Definition parseDate (h : Host) (dateInput : value) : option (option date) :=
  match dateInput with
  | VNull | VUndefined => Some None
  | VNum x =>
      if ((1000 <? x) && (x <? 100000))%float then Some (Some (Root.dateOfSerial h x))
      else if (x <? 10000000000)%float then Some (Some (newDateOfNumber (x * 1000)%float))
      else Some (Some (newDateOfNumber x))
  | VStr s =>
      if Root.matchesMDY s then Some (Some (Root.dateOfMDY s))
      else if String.eqb (trim s) "" then Some None
      else None
  | _ => None
  end.




End Spec.

(** A host for the examples: UTC as the local time zone, no date format
    beyond the code's own pattern, and a fixed rendering of dates. *)
Definition utcHost : JSValue.Host :=
  {| JSValue.utcOfLocal := fun t => t;
     JSValue.localOfUtc := fun t => t;
     JSValue.dateParse := fun _ => None;
     JSValue.dateToString := fun _ => "Invalid Date"%string |}.

(** A store with no record and no summary. *)
Definition emptyStore : Store.store :=
  {| Store.claimRecords := []; Store.calculatedMetrics := [] |}.

(* ===================================================================== *)
(** ** Traces of the batch persister *)
(* ===================================================================== *)

(** The shape a trace of [saveDataToDatabase] is compared with. *)
Module TraceSpec.
Import JSValue Root.

(** Consecutive batches of [size] elements. *)
Fixpoint chunksFuel (A : Type) (fuel size : nat) (l : list A) : list (list A) :=
  match fuel with
  | O => []
  | S f =>
      match l with
      | [] => []
      | _ => firstn size l :: chunksFuel f size (skipn size l)
      end
  end.

Definition chunks (A : Type) (size : nat) (l : list A) : list (list A) :=
  chunksFuel (List.length l) size l.

(** The individual attempts over a batch, given the outcome of each
    record: the call, and for a failure the console lines, the record
    itself among them when [printRecord] is set. *)
Definition individualEvents (printRecord : bool) (outcomes : list (record * bool))
  : list event :=
  flat_map
    (fun ro =>
       Create (fst ro) (snd ro) ::
       (if snd ro then []
        else Log FailedIndividualRecord ::
             (if printRecord then [Log (ProblematicRecord (fst ro))] else [])))
    outcomes.

(** The trace of one batch: either the bulk insert succeeds, or it fails
    and every record of the batch is attempted on its own. *)
Inductive batchTrace (printRecord : bool) (number total : nat) (batch : list record)
  : list event -> Prop :=
| bulkSaved :
    batchTrace printRecord number total batch
      [Log (SavingBatch number total (List.length batch)); CreateMany batch true]
| bulkFailed (outcomes : list bool) :
    List.length outcomes = List.length batch ->
    batchTrace printRecord number total batch
      ([Log (SavingBatch number total (List.length batch));
        CreateMany batch false;
        Log (ErrorSavingBatch number);
        Log AttemptingIndividually]
       ++ individualEvents printRecord (combine batch outcomes)).

(** The traces of consecutive batches, numbered from [number]. *)
Fixpoint batchTraces (printRecord : bool) (total number : nat)
  (batches : list (list record)) (ts : list (list event)) : Prop :=
  match batches, ts with
  | [], [] => True
  | b :: bs, t :: ts' =>
      batchTrace printRecord number total b t
      /\ batchTraces printRecord total (S number) bs ts'
  | _, _ => False
  end.

(** The records a trace shows as persisted. *)
Definition savedBy (e : event) : nat :=
  match e with
  | CreateMany batch true => List.length batch
  | Create _ true => 1
  | _ => 0
  end.

Definition savedOf (t : list event) : nat := list_sum (map savedBy t).



End TraceSpec.

(* ===================================================================== *)
(** ** Fields of a summary *)
(* ===================================================================== *)

Module SummarySpec.
Import JSObject JSValue.
Local Open Scope string_scope.





End SummarySpec.

(** A store with one DETOX record, allowed 100. *)
Definition oneClaimStore : Store.store :=
  {| Store.claimRecords :=
       [[("levelOfCare"%string, JSValue.VStr "DETOX");
         ("allowedAmount"%string, JSValue.VNum 100%float)]];
     Store.calculatedMetrics := [] |}.

(* ===================================================================== *)
(** ** Iteration order of the frequency tally *)
(* ===================================================================== *)

Module TallySpec.
Import JSNumber JSObject.




End TallySpec.

(* ===================================================================== *)
(** ** Order and rounding of binary64, for the comparator of the sort *)
(* ===================================================================== *)

Module Binary64.

(** The least exponent of the format. *)
Definition emin64 : Z := SpecFloat.emin prec emax.

(** The numbers of sign [s] other than zero and NaN. *)
Inductive signed (s : bool) : spec_float -> Prop :=
| signed_finite m e : signed s (S754_finite s m e)
| signed_infinity : signed s (S754_infinity s).

(** [a] is not above [b]: the order of an array sorted ascending. *)
Definition notAbove (a b : float) : Prop := (b <? a)%float = false.

End Binary64.

(* ===================================================================== *)
(** ** Auxiliary predicates and checks *)
(* ===================================================================== *)

Module Checks.
Import JSNumber JSValue.
Local Open Scope Z_scope.

(** What a string field holds after coercion. *)
Definition stringOrMissing (v : value) : Prop :=
  match v with
  | VUndefined | VNull | VStr _ => True
  | _ => False
  end.

(** The check of one serial number on machine numbers: it lies strictly
    between 1000 and 100000, and adding the day of the epoch to it is
    exact. *)
Definition serialInRange (n : Z) : bool :=
  let x := of_uint63 (Uint63.of_Z n) in
  (1000 <? x)%float && (x <? 100000)%float
  && Leibniz.eqb (30 + x)%float (of_uint63 (Uint63.of_Z (n + 30))).

(** The check of [count] consecutive numbers from [start]. *)
Fixpoint checkedFrom (check : Z -> bool) (count : nat) (start : Z) : bool :=
  match count with
  | O => true
  | S k => check start && checkedFrom check k (start + 1)
  end.

End Checks.

(* ===================================================================== *)
(** * Properties *)
(* ===================================================================== *)

(* ===================================================================== *)
(** ** Strings and the normalizer *)
(* ===================================================================== *)

Module NormalizerFacts.
Import JSString Normalizer.
Local Open Scope string_scope.

(** Facts about single characters are decided over the 256 of them. *)
Ltac by_cases_on_char c :=
  destruct c as [[] [] [] [] [] [] [] []]; vm_compute; try reflexivity; try discriminate.

Lemma keyChar_not_whiteSpace (c : ascii) :
  isKeyChar c = true -> isWhiteSpace c = false.
Proof. by_cases_on_char c. Qed.

Lemma keyChar_lower (c : ascii) : isKeyChar c = true -> lowerChar c = c.
Proof. by_cases_on_char c. Qed.

Lemma allChars_cons (p : ascii -> bool) (c : ascii) (s : string) :
  allChars p (String c s) = true -> p c = true /\ allChars p s = true.
Proof. simpl. apply andb_true_iff. Qed.

Lemma removeChars_all (p : ascii -> bool) (s : string) :
  allChars p (removeChars (fun c => negb (p c)) s) = true.
Proof.
  induction s as [|c s IH]; simpl; [reflexivity|].
  destruct (p c) eqn:E; simpl; [rewrite E|]; exact IH.
Qed.

Lemma removeChars_fixed (p : ascii -> bool) (s : string) :
  allChars p s = true -> removeChars (fun c => negb (p c)) s = s.
Proof.
  induction s as [|c s IH]; simpl; [reflexivity|].
  intros H. apply andb_true_iff in H as [Hc Hs].
  rewrite Hc. simpl. now rewrite IH.
Qed.

Lemma toLowerCase_fixed (s : string) :
  allChars isKeyChar s = true -> toLowerCase s = s.
Proof.
  induction s as [|c s IH]; simpl; [reflexivity|].
  intros H. apply andb_true_iff in H as [Hc Hs].
  now rewrite (keyChar_lower _ Hc), IH.
Qed.

Lemma trimStart_fixed (s : string) :
  allChars isKeyChar s = true -> trimStart s = s.
Proof.
  destruct s as [|c s]; simpl; [reflexivity|].
  intros H. apply andb_true_iff in H as [Hc _].
  now rewrite (keyChar_not_whiteSpace _ Hc).
Qed.

Lemma trimEnd_fixed (s : string) :
  allChars isKeyChar s = true -> trimEnd s = s.
Proof.
  induction s as [|c s IH]; simpl; [reflexivity|].
  intros H. apply andb_true_iff in H as [Hc Hs].
  rewrite (IH Hs), (keyChar_not_whiteSpace _ Hc).
  now destruct s.
Qed.

Lemma replaceWhiteSpaceRuns_fixed (by_ : string) (s : string) :
  allChars isKeyChar s = true -> forall b, replaceWhiteSpaceRuns by_ b s = s.
Proof.
  induction s as [|c s IH]; simpl; [reflexivity|].
  intros H b. apply andb_true_iff in H as [Hc Hs].
  now rewrite (keyChar_not_whiteSpace _ Hc), (IH Hs).
Qed.

Lemma normalizeFieldName_keyChars (h : string) :
  allChars isKeyChar (normalizeFieldName h) = true.
Proof. apply removeChars_all. Qed.

Lemma normalizeFieldName_fixed (s : string) :
  allChars isKeyChar s = true -> normalizeFieldName s = s.
Proof.
  intros H. unfold normalizeFieldName, trim.
  rewrite (trimStart_fixed _ H), (trimEnd_fixed _ H), (toLowerCase_fixed _ H).
  rewrite (replaceWhiteSpaceRuns_fixed _ _ H).
  now apply removeChars_fixed.
Qed.

(** C9. The header normalizer is idempotent, its result consists of
    characters of [[a-z0-9_]] only, and it is the composition trim, then
    lowercase, then one underscore per run of white space, then removal
    of every other character; being a function of the model, it is
    total. *)
Theorem normalizeFieldName_idempotent (h : string) :
  normalizeFieldName (normalizeFieldName h) = normalizeFieldName h
  /\ allChars isKeyChar (normalizeFieldName h) = true
  /\ normalizeFieldName h =
       removeChars (fun c => negb (isKeyChar c))
         (replaceWhiteSpaceRuns "_" false (toLowerCase (trim h))).
Proof.
  split; [|split].
  - apply normalizeFieldName_fixed, normalizeFieldName_keyChars.
  - apply normalizeFieldName_keyChars.
  - reflexivity.
Qed.

Example normalize_charge_amount :
  normalizeFieldName "  Charge   Amount ($) " = "charge_amount_".
Proof. reflexivity. Qed.

Example normalize_loc : normalizeFieldName " L.O.C " = "loc".
Proof. reflexivity. Qed.

End NormalizerFacts.

(* ===================================================================== *)
(** ** Objects *)
(* ===================================================================== *)

Module ObjectFacts.
Import JSObject.
Local Open Scope string_scope.

Section Dictionary.
Variable V : Type.

Lemma get_set_same (k : string) (v : V) (o : obj V) :
  get k (set k v o) = Some v.
Proof.
  induction o as [|[k' v'] o IH]; simpl.
  - now rewrite String.eqb_refl.
  - destruct (String.eqb k k') eqn:E; simpl; rewrite ?String.eqb_refl, ?E; auto.
Qed.

Lemma get_set_other (k k' : string) (v : V) (o : obj V) :
  String.eqb k k' = false -> get k (set k' v o) = get k o.
Proof.
  intros Hne. induction o as [|[k2 v2] o IH]; simpl.
  - now rewrite Hne.
  - destruct (String.eqb k' k2) eqn:E; simpl.
    + apply String.eqb_eq in E. subst k2. now rewrite Hne.
    + now rewrite IH.
Qed.

Lemma get_set (k k' : string) (v : V) (o : obj V) :
  get k (set k' v o) = if String.eqb k k' then Some v else get k o.
Proof.
  destruct (String.eqb k k') eqn:E.
  - apply String.eqb_eq in E. subst. apply get_set_same.
  - now apply get_set_other.
Qed.

(** Spreading defines each property of the source, so a key the source
    lacks keeps the value of the target. *)
Lemma get_fold_set_other (k : string) (es : obj V) (o : obj V) :
  get k es = None ->
  get k (fold_left (fun acc e => set (fst e) (snd e) acc) es o) = get k o.
Proof.
  revert o. induction es as [|[k' v'] es IH]; simpl; intros o H; [reflexivity|].
  destruct (String.eqb k k') eqn:E; [discriminate|].
  rewrite (IH _ H). now apply get_set_other.
Qed.

Lemma get_insertIndex_none (k : string) (i : Z) (e : string * V) l :
  String.eqb k (fst e) = false ->
  get k (map snd l) = None ->
  get k (map snd (insertIndex i e l)) = None.
Proof.
  intros He. destruct e as [ke ve]. simpl in He.
  induction l as [|[j [k' v']] l IH]; simpl.
  - now rewrite He.
  - destruct (String.eqb k k') eqn:E; [discriminate|]. intros H.
    destruct (i <? j)%Z; simpl; rewrite ?He, ?E; auto.
Qed.

Lemma get_indexProps_none (k : string) (o : obj V) :
  get k o = None -> get k (map snd (indexProps o)) = None.
Proof.
  induction o as [|[k' v'] o IH]; simpl; [reflexivity|].
  destruct (String.eqb k k') eqn:E; [discriminate|]. intros H.
  destruct (JSNumber.arrayIndex k'); [|auto].
  apply get_insertIndex_none; auto.
Qed.

Lemma get_app_none (k : string) (a b : obj V) :
  get k a = None -> get k b = None -> get k (a ++ b)%list = None.
Proof.
  induction a as [|[k' v'] a IH]; simpl; [auto|].
  destruct (String.eqb k k'); [discriminate|auto].
Qed.

Lemma get_filter_none (k : string) (f : string * V -> bool) (o : obj V) :
  get k o = None -> get k (filter f o) = None.
Proof.
  induction o as [|[k' v'] o IH]; simpl; [reflexivity|].
  destruct (String.eqb k k') eqn:E; [discriminate|]. intros H.
  destruct (f (k', v')); simpl; rewrite ?E; auto.
Qed.

Lemma get_entries_none (k : string) (o : obj V) :
  get k o = None -> get k (entries o) = None.
Proof.
  intros H. unfold entries. apply get_app_none.
  - now apply get_indexProps_none.
  - now apply get_filter_none.
Qed.

(** A property of the target that the source does not have survives the
    spread. *)
Lemma get_spread_other (k : string) (target source : obj V) :
  get k source = None -> get k (spread target source) = get k target.
Proof.
  intros H. unfold spread. apply get_fold_set_other. now apply get_entries_none.
Qed.

End Dictionary.

End ObjectFacts.

(* ===================================================================== *)
(** ** The record builder *)
(* ===================================================================== *)

Module CleanRowFacts.
Import JSString JSNumber JSObject JSValue Normalizer Fixed ObjectFacts Checks.
Local Open Scope string_scope.

Lemma coerceString_shape (h : Host) (v : value) : stringOrMissing (coerceString h v).
Proof. destruct v; exact I. Qed.

Lemma getProp_set (k k' : string) (v : value) (o : record) :
  getProp k (set k' v o) = if String.eqb k k' then v else getProp k o.
Proof.
  unfold getProp. rewrite get_set. now destruct (String.eqb k k').
Qed.

(** The loop keeps, for a string field, a string or a missing value. *)
Lemma cleanFields_shape (h : Host) (row : record) (k : string) :
  (forall v, coerce h k v = coerceString h v) ->
  forall headers acc,
    stringOrMissing (getProp k acc) ->
    stringOrMissing
      (getProp k
         (fold_left
            (fun cleanedRow originalHeader =>
               match lookupField (normalizeFieldName originalHeader) with
               | Some dbField =>
                   set dbField (coerce h dbField (getProp originalHeader row)) cleanedRow
               | None => cleanedRow
               end) headers acc)).
Proof.
  intros Hk. induction headers as [|hd headers IH]; simpl; intros acc Hacc; [exact Hacc|].
  apply IH. destruct (lookupField (normalizeFieldName hd)) as [f|]; [|exact Hacc].
  rewrite getProp_set. destruct (String.eqb k f) eqn:E; [|exact Hacc].
  apply String.eqb_eq in E. subst f. rewrite Hk. apply coerceString_shape.
Qed.

Lemma levelOfCare_shape (h : Host) (row : record) (headers : list string) :
  stringOrMissing (getProp "levelOfCare" (cleanFields h row headers)).
Proof. apply cleanFields_shape; [reflexivity | exact I]. Qed.

Lemma revenueCode_shape (h : Host) (row : record) (headers : list string) :
  stringOrMissing (getProp "revenueCode" (cleanFields h row headers)).
Proof. apply cleanFields_shape; [reflexivity | exact I]. Qed.

Lemma deriveLevelOfCare_nonempty (s : string) : Root.deriveLevelOfCare s <> "".
Proof.
  unfold Root.deriveLevelOfCare.
  repeat match goal with |- context [if ?b then _ else _] => destruct b end;
    discriminate.
Qed.

(** Past the guard for the empty string, [deriveLevelOfCare] is the rule
    table on the first character of the trimmed code. *)
Lemma deriveLevelOfCare_rule (s : string) :
  s <> "" -> Root.deriveLevelOfCare s = Spec.levelOfFirstChar (trim s).
Proof.
  intros Hs. unfold Root.deriveLevelOfCare.
  destruct (String.eqb s "") eqn:E; [apply String.eqb_eq in E; contradiction|].
  destruct (trim s) as [|c r]; [reflexivity|].
  unfold startsWithChar.
  destruct c as [[] [] [] [] [] [] [] []]; reflexivity.
Qed.

(** The last step of [cleanRow], read off the record. *)
Lemma resolveLevelOfCare_value (h : Host) (c : record) :
  getProp "levelOfCare" (resolveLevelOfCare h c) =
  if truthy (getProp "levelOfCare" c) then getProp "levelOfCare" c
  else if truthy (getProp "revenueCode" c)
       then VStr (Root.deriveLevelOfCare (ToString h (getProp "revenueCode" c)))
       else VStr "UNKNOWN".
Proof.
  unfold resolveLevelOfCare.
  destruct (truthy (getProp "levelOfCare" c)); simpl; [reflexivity|].
  destruct (truthy (getProp "revenueCode" c)); simpl;
    now rewrite getProp_set.
Qed.

(** C10. Whatever the row and the headers, the record built by
    [cleanRow] has a [levelOfCare] that is a non-empty string: a coerced
    value that is falsy (null, undefined or the empty string) is replaced
    by the level derived from [revenueCode], or by UNKNOWN when the
    revenue code is falsy too; a truthy one is kept. *)
Theorem cleanRow_levelOfCare_nonempty (h : Host) (row : record) (headers : list string) :
  let coerced := cleanFields h row headers in
  let built := cleanRow h row headers in
  (exists s, getProp "levelOfCare" built = VStr s /\ s <> "")
  /\ getProp "levelOfCare" built =
       (if truthy (getProp "levelOfCare" coerced)
        then getProp "levelOfCare" coerced
        else if truthy (getProp "revenueCode" coerced)
             then VStr (Root.deriveLevelOfCare
                          (ToString h (getProp "revenueCode" coerced)))
             else VStr "UNKNOWN").
Proof.
  intros coerced built. subst built. unfold cleanRow. fold coerced.
  split; [|apply resolveLevelOfCare_value].
  rewrite resolveLevelOfCare_value.
  pose proof (levelOfCare_shape h row headers) as Hl. fold coerced in Hl.
  destruct (getProp "levelOfCare" coerced) as [| |b|x|s|d|o]; simpl in *; try contradiction.
  - destruct (truthy (getProp "revenueCode" coerced)).
    + eexists; split; [reflexivity|apply deriveLevelOfCare_nonempty].
    + eexists; split; [reflexivity|discriminate].
  - destruct (truthy (getProp "revenueCode" coerced)).
    + eexists; split; [reflexivity|apply deriveLevelOfCare_nonempty].
    + eexists; split; [reflexivity|discriminate].
  - destruct (String.eqb s "") eqn:E; simpl.
    + destruct (truthy (getProp "revenueCode" coerced)).
      * eexists; split; [reflexivity|apply deriveLevelOfCare_nonempty].
      * eexists; split; [reflexivity|discriminate].
    + exists s. split; [reflexivity|]. intros ->. discriminate.
Qed.

Example cleanRow_empty_loc_is_replaced :
  getProp "levelOfCare"
    (cleanRow utcHost [("LOC", VStr ""); ("Revenue Code", VStr "305")]
              ["LOC"; "Revenue Code"])
  = VStr "RES".
Proof. reflexivity. Qed.

Example cleanRow_no_headers :
  cleanRow utcHost [] [] = [("levelOfCare", VStr "UNKNOWN")].
Proof. reflexivity. Qed.

(** C5, as amended. When the coerced [levelOfCare] is falsy: a revenue
    code that is present and not empty gives the level of the rule table
    applied to the first character of the stringified code after white
    space is trimmed from it; a revenue code that is absent, null or
    empty gives UNKNOWN. *)
Theorem cleanRow_derives_levelOfCare (h : Host) (row : record) (headers : list string) :
  let coerced := cleanFields h row headers in
  truthy (getProp "levelOfCare" coerced) = false ->
  getProp "levelOfCare" (cleanRow h row headers) =
    if truthy (getProp "revenueCode" coerced)
    then VStr (Spec.levelOfFirstChar (trim (ToString h (getProp "revenueCode" coerced))))
    else VStr "UNKNOWN".
Proof.
  intros coerced Hl. unfold cleanRow. fold coerced.
  rewrite resolveLevelOfCare_value, Hl.
  pose proof (revenueCode_shape h row headers) as Hr. fold coerced in Hr.
  destruct (getProp "revenueCode" coerced) as [| |b|x|s|d|o]; simpl in *;
    try contradiction; try reflexivity.
  destruct (String.eqb s "") eqn:E; simpl; [reflexivity|].
  rewrite deriveLevelOfCare_rule; [reflexivity|].
  intros ->. discriminate.
Qed.

(** Revenue code 250 and no level of care: PHP. *)
Lemma cleanRow_derives_levelOfCare_witness :
  getProp "levelOfCare"
    (cleanRow utcHost [("LOC", VNull); ("Revenue Code", VNum 250%float)]
              ["LOC"; "Revenue Code"])
  = VStr "PHP".
Proof.
  exact (cleanRow_derives_levelOfCare utcHost
           [("LOC", VNull); ("Revenue Code", VNum 250%float)]
           ["LOC"; "Revenue Code"] eq_refl).
Defined.

Example cleanRow_neither_is_unknown :
  getProp "levelOfCare" (cleanRow utcHost [("LOC", VNull)] ["LOC"]) = VStr "UNKNOWN".
Proof. reflexivity. Qed.

(** C5 as stated fails: the coerced level of care is null, the revenue
    code is the string of a blank followed by 250, whose first character
    is the blank, yet the level is PHP and not OTHER. *)
Lemma cleanRow_first_char_counterexample :
  let row := [("LOC", VNull); ("Revenue Code", VStr " 250")] in
  let headers := ["LOC"; "Revenue Code"] in
  let coerced := cleanFields utcHost row headers in
  getProp "levelOfCare" coerced = VNull
  /\ getProp "revenueCode" coerced = VStr " 250"
  /\ Spec.levelOfFirstChar (ToString utcHost (getProp "revenueCode" coerced)) = "OTHER"
  /\ getProp "levelOfCare" (cleanRow utcHost row headers) = VStr "PHP"
  /\ getProp "levelOfCare" (cleanRow utcHost row headers)
     <> VStr (Spec.levelOfFirstChar (ToString utcHost (getProp "revenueCode" coerced))).
Proof.
  repeat split; try reflexivity. vm_compute. discriminate.
Qed.

End CleanRowFacts.

(* ===================================================================== *)
(** ** Currency fields *)
(* ===================================================================== *)

Module CurrencyFacts.
Import JSString JSNumber JSObject JSValue Normalizer Fixed.
Local Open Scope string_scope.

Lemma numericField_coerce (h : Host) (dbField : string) (v : value) :
  setHas numericFields dbField = true -> coerce h dbField v = coerceNumber h v.
Proof.
  intros H. unfold coerce.
  assert (Hd : setHas dateFields dbField = false).
  { unfold setHas, numericFields in H. simpl in H.
    repeat (apply orb_true_iff in H as [H|H];
            [apply String.eqb_eq in H; subst; reflexivity|]).
    discriminate. }
  now rewrite Hd, H.
Qed.

(** C8, as amended. For a currency field the coercion never fails and
    yields: for a text, the number [parseFloat] reads from what is left
    once every [$] and [,] is removed, that is the value of the longest
    leading decimal literal after optional white space, whatever follows
    it, and null when there is no such prefix; for a number, the number
    itself, null when it is NaN; null for null and undefined; and for
    any other value its conversion by [Number], null when that is NaN. *)
Theorem coerce_currency (h : Host) (dbField : string) (v : value) :
  setHas numericFields dbField = true ->
  coerce h dbField v =
    match v with
    | VStr s =>
        let x := parseFloat (removeChars isCurrencyMark s) in
        if isNaN x then VNull else VNum x
    | VNum x => if isNaN x then VNull else VNum x
    | VNull | VUndefined => VNull
    | _ => let x := ToNumber h v in if isNaN x then VNull else VNum x
    end.
Proof.
  intros H. rewrite (numericField_coerce h dbField v H).
  unfold coerceNumber. destruct v; simpl; try reflexivity.
Qed.

(** ["$1,234.50"] becomes 1234.5. *)
Lemma coerce_currency_witness :
  coerce utcHost "chargeAmount" (VStr "$1,234.50") = VNum 1234.5%float.
Proof.
  exact (coerce_currency utcHost "chargeAmount" (VStr "$1,234.50") eq_refl).
Defined.

Example coerce_currency_abc :
  coerce utcHost "allowedAmount" (VStr "abc") = VNull.
Proof. reflexivity. Qed.

Example coerce_currency_infinity :
  coerce utcHost "payment" (VStr "Infinity") = VNum infinity.
Proof. reflexivity. Qed.

Example coerce_currency_boolean :
  coerce utcHost "payment" (VBool true) = VNum 1%float.
Proof. reflexivity. Qed.

Example cleanRow_charge_amount :
  getProp "chargeAmount"
    (cleanRow utcHost [("Charge Amount", VStr "$100.00")] ["Charge Amount"])
  = VNum 100%float.
Proof. reflexivity. Qed.

(** C8 as stated fails: what is left of ["12abc"] is not a decimal
    number, and the coercion yields 12 instead of null. *)
Lemma coerce_currency_counterexample :
  isDecimalLiteral (removeChars isCurrencyMark "12abc") = false
  /\ coerce utcHost "chargeAmount" (VStr "12abc") = VNum 12%float
  /\ coerce utcHost "chargeAmount" (VStr "12abc") <> VNull.
Proof.
  repeat split; try reflexivity. vm_compute. discriminate.
Qed.

End CurrencyFacts.

(* ===================================================================== *)
(** ** Order of binary64 numbers *)
(* ===================================================================== *)

Module FloatFacts.
Import JSNumber.
Local Open Scope Z_scope.

Lemma SFcompare_swap (a b : spec_float) :
  SFcompare b a = option_map CompOpp (SFcompare a b).
Proof.
  destruct a as [sa|sa| |sa ma ea], b as [sb|sb| |sb mb eb]; simpl;
    try reflexivity;
    try (destruct sa; reflexivity); try (destruct sb; reflexivity);
    try (destruct sa, sb; reflexivity).
  destruct sa, sb; simpl; try reflexivity;
    rewrite (Z.compare_antisym ea eb);
    destruct (ea ?= eb) eqn:E; simpl; try reflexivity;
    rewrite (Pos.compare_cont_antisym _ _ Eq); simpl;
    try reflexivity; now rewrite CompOpp_involutive.
Qed.

(** The order of two finite numbers, by sign, exponent and mantissa. *)
Lemma SFltb_finite (s1 s2 : bool) m1 e1 m2 e2 :
  SFltb (S754_finite s1 m1 e1) (S754_finite s2 m2 e2) = true <->
  (s1 = true /\ s2 = false)
  \/ (s1 = false /\ s2 = false /\ (e1 < e2 \/ (e1 = e2 /\ (m1 < m2)%positive)))
  \/ (s1 = true /\ s2 = true /\ (e2 < e1 \/ (e1 = e2 /\ (m2 < m1)%positive))).
Proof.
  unfold SFltb, SFcompare.
  destruct s1, s2; simpl;
    try rewrite Pos.compare_cont_spec;
    destruct (Z.compare_spec e1 e2); simpl;
    try destruct (Pos.compare_spec m1 m2); simpl;
    split; intros HH; try discriminate; try reflexivity;
    intuition (try discriminate; try lia).
Qed.

Lemma SFltb_trans (a b c : spec_float) :
  SFltb a b = true -> SFltb b c = true -> SFltb a c = true.
Proof.
  destruct a as [sa|sa| |sa ma ea], b as [sb|sb| |sb mb eb], c as [sc|sc| |sc mc ec];
    try (unfold SFltb; simpl;
         repeat match goal with s : bool |- _ => destruct s end;
         simpl; congruence).
  rewrite !SFltb_finite. intros H1 H2.
  destruct sa, sb, sc; try lia; intuition (try discriminate; try lia).
Qed.

Lemma ltb_asym (a b : float) : (a <? b)%float = true -> (b <? a)%float = false.
Proof.
  rewrite !ltb_spec. unfold SFltb. rewrite (SFcompare_swap (Prim2SF a) (Prim2SF b)).
  destruct (SFcompare (Prim2SF a) (Prim2SF b)) as [[| |]|]; simpl; congruence.
Qed.

Lemma ltb_trans (a b c : float) :
  (a <? b)%float = true -> (b <? c)%float = true -> (a <? c)%float = true.
Proof. rewrite !ltb_spec. apply SFltb_trans. Qed.

(** [digits2_pos m] is the number of binary digits of [m]. *)
Lemma digits2_pos_bounds (m : positive) :
  2 ^ (Z.pos (digits2_pos m) - 1) <= Z.pos m < 2 ^ Z.pos (digits2_pos m).
Proof.
  induction m as [m IH|m IH|]; cbn [digits2_pos].
  - rewrite Pos2Z.inj_succ.
    replace (Z.succ (Z.pos (digits2_pos m)) - 1) with (Z.succ (Z.pos (digits2_pos m) - 1)) by lia.
    rewrite !Z.pow_succ_r by lia. lia.
  - rewrite Pos2Z.inj_succ.
    replace (Z.succ (Z.pos (digits2_pos m)) - 1) with (Z.succ (Z.pos (digits2_pos m) - 1)) by lia.
    rewrite !Z.pow_succ_r by lia. lia.
  - simpl. lia.
Qed.

Lemma iter_xO (m d : positive) : Z.pos (Pos.iter xO m d) = Z.pos m * 2 ^ Z.pos d.
Proof.
  revert m. induction d as [|d IH] using Pos.peano_ind; intros m.
  - simpl. lia.
  - rewrite Pos.iter_succ, Pos2Z.inj_succ, Z.pow_succ_r by lia.
    rewrite Pos2Z.inj_xO, IH. lia.
Qed.

Lemma iter_xO_digits (m d : positive) :
  digits2_pos (Pos.iter xO m d) = (digits2_pos m + d)%positive.
Proof.
  induction d as [|d IH] using Pos.peano_ind.
  - simpl. lia.
  - rewrite Pos.iter_succ. simpl. rewrite IH. lia.
Qed.

(** A canonical mantissa is left as it is by rounding. *)
Lemma binary_round_aux_canonical (s : bool) (m : positive) (e : Z) :
  fexp prec emax (Z.pos (digits2_pos m) + e) = e ->
  e <= emax - prec ->
  binary_round_aux prec emax s (Z.pos m) e loc_Exact = S754_finite s m e.
Proof.
  intros Hc He.
  unfold binary_round_aux, shr_fexp. cbn [Zdigits2 shr_record_of_loc].
  rewrite Hc, Z.sub_diag.
  cbn [shr shr_m loc_of_shr_record round_nearest_even Zdigits2 shr_record_of_loc].
  rewrite Hc, Z.sub_diag. cbn [shr shr_m].
  apply Z.leb_le in He. now rewrite He.
Qed.

(** An integer of at most 53 bits is a float: its mantissa is the integer
    shifted to 53 bits. *)
Lemma binary_round_integer (s : bool) (p : positive) :
  Z.pos (digits2_pos p) <= 53 ->
  exists m e, binary_round prec emax s p 0 = S754_finite s m e
    /\ e <= 0 /\ Z.pos m = Z.pos p * 2 ^ (- e)
    /\ valid_binary (S754_finite s m e) = true.
Proof.
  intros Hd. unfold binary_round, shl_align.
  assert (Hf : fexp prec emax (Z.pos (digits2_pos p) + 0)
               = Z.pos (digits2_pos p) - 53).
  { unfold fexp, SpecFloat.emin, prec, emax. lia. }
  rewrite Hf.
  destruct (Z.pos (digits2_pos p) - 53 - 0) as [|q|q] eqn:E; try lia.
  - exists p, 0. split; [|split; [lia|split; [simpl; lia|]]].
    + apply binary_round_aux_canonical; [rewrite Hf; lia|unfold emax, prec; lia].
    + unfold valid_binary, bounded, canonical_mantissa. rewrite Hf.
      apply andb_true_iff.
      split; [apply Z.eqb_eq; lia|apply Z.leb_le; unfold emax, prec; lia].
  - assert (Hc : fexp prec emax (Z.pos (digits2_pos (Pos.iter xO p q))
                                 + (Z.pos (digits2_pos p) - 53))
                 = Z.pos (digits2_pos p) - 53).
    { rewrite iter_xO_digits. unfold fexp, SpecFloat.emin, prec, emax. lia. }
    exists (Pos.iter xO p q), (Z.pos (digits2_pos p) - 53).
    split; [|split; [lia|split]].
    + apply binary_round_aux_canonical; [exact Hc|unfold emax, prec; lia].
    + rewrite iter_xO. do 2 f_equal. lia.
    + unfold valid_binary, bounded, canonical_mantissa. rewrite Hc.
      apply andb_true_iff.
      split; [apply Z.eqb_eq; lia|apply Z.leb_le; unfold emax, prec; lia].
Qed.

Lemma digits2_pos_53 (p : positive) :
  Z.pos p < 2 ^ 53 -> Z.pos (digits2_pos p) <= 53.
Proof.
  intros H.
  destruct (Z.le_gt_cases (Z.pos (digits2_pos p)) 53) as [L|L]; [exact L|].
  exfalso. pose proof (digits2_pos_bounds p) as G.
  assert (2 ^ 53 <= 2 ^ (Z.pos (digits2_pos p) - 1))
    by (apply Z.pow_le_mono_r; lia).
  lia.
Qed.

(** The integer part of the float of a whole number below 2^53 is the
    number. *)
Lemma truncate_ofZ (n : Z) : 0 <= n < 2 ^ 53 -> truncate (ofZ n) = Some n.
Proof.
  intros Hn. unfold truncate, ofZ.
  destruct n as [|p|p]; [reflexivity| |lia].
  cbn [binary_normalize].
  destruct (binary_round_integer false p) as (m & e & Hr & He & Hm & Hv).
  { apply digits2_pos_53. lia. }
  rewrite Hr, Prim2SF_SF2Prim by exact Hv.
  cbn [cond_Zopp]. f_equal.
  destruct (Z.leb_spec 0 e) as [L|L].
  - assert (e = 0) by lia. subst e. rewrite Hm. simpl. lia.
  - rewrite Hm. apply Z.div_mul. apply Z.pow_nonzero; lia.
Qed.

(** The float of a whole number is the machine conversion of the machine
    integer. *)
Lemma ofZ_of_uint63 (n : Z) :
  0 <= n < 2 ^ 63 -> ofZ n = of_uint63 (Uint63.of_Z n).
Proof.
  intros Hn. unfold ofZ.
  rewrite <- (SF2Prim_Prim2SF (of_uint63 (Uint63.of_Z n))).
  rewrite of_uint63_spec, Uint63.of_Z_spec, Z.mod_small by exact Hn.
  reflexivity.
Qed.

End FloatFacts.

(* ===================================================================== *)
(** ** Calendar dates *)
(* ===================================================================== *)

Module DateFacts.
Import JSString JSNumber JSObject JSValue FloatFacts Checks.
Local Open Scope string_scope.
Local Open Scope Z_scope.

(** The serial branch does not depend on the host: the epoch is built
    from calendar fields, and so is the result. *)
Lemma dateOfSerial_value (h : Host) (x : number) :
  Root.dateOfSerial h x =
  match truncate (30 + x)%float with
  | Some k => LocalDate ((daysFromCivil 1899 12 30 + (k - 30)) * msPerDay)
  | None => InvalidDate
  end.
Proof.
  unfold Root.dateOfSerial, setDate, getDate.
  change (localTime h Root.excelEpoch) with (Some (-2209161600000)).
  cbv iota beta.
  replace (ofZ (snd (civilFromDays (-2209161600000 / msPerDay))))
    with 30%float by (vm_compute; reflexivity).
  destruct (truncate (30 + x)%float) as [k|]; [|reflexivity].
  replace (civilFromDays (-2209161600000 / msPerDay))
    with (1899, 12, 30) by (vm_compute; reflexivity).
  cbv iota beta. unfold MakeDay.
  replace (daysFromCivil (1899 + (12 - 1) / 12) ((12 - 1) mod 12 + 1) 1)
    with (-25598) by (vm_compute; reflexivity).
  replace (daysFromCivil 1899 12 30) with (-25569) by (vm_compute; reflexivity).
  replace (-2209161600000 mod msPerDay) with 0 by (vm_compute; reflexivity).
  f_equal. lia.
Qed.

Lemma checkedFrom_spec (check : Z -> bool) (count : nat) :
  forall start, checkedFrom check count start = true ->
  forall n, start <= n < start + Z.of_nat count -> check n = true.
Proof.
  induction count as [|k IH]; intros start H n Hn; [lia|].
  simpl in H. apply andb_true_iff in H as [H0 Hk].
  destruct (Z.eq_dec n start) as [->|Hne]; [exact H0|].
  apply (IH (start + 1) Hk). lia.
Qed.

Lemma serialRange_checked :
  checkedFrom serialInRange (Z.to_nat 98999) 1001 = true.
Proof. vm_compute. reflexivity. Qed.

(** Every whole serial number strictly between 1000 and 100000 is the day
    that many days after 1899-12-30. *)
Lemma parseDate_serial_integer (h : Host) (n : Z) :
  1000 < n < 100000 ->
  Fixed.parseDate h (VNum (ofZ n)) =
  Some (LocalDate ((daysFromCivil 1899 12 30 + n) * msPerDay)).
Proof.
  intros Hn.
  assert (Hc : serialInRange n = true).
  { apply (@checkedFrom_spec serialInRange (Z.to_nat 98999) 1001 serialRange_checked).
    lia. }
  unfold serialInRange in Hc. cbv zeta in Hc.
  rewrite <- !ofZ_of_uint63 in Hc by lia.
  apply andb_true_iff in Hc as [Hc Hadd].
  apply andb_true_iff in Hc as [Hlo Hhi].
  apply Leibniz.eqb_spec in Hadd.
  unfold Fixed.parseDate.
  rewrite (ltb_asym Hlo), Hlo, Hhi. cbn [andb].
  rewrite dateOfSerial_value, Hadd, truncate_ofZ by lia.
  do 2 f_equal. lia.
Qed.

Lemma matchesMDY_parts (s : string) :
  Root.matchesMDY s = true ->
  exists a b c, split "/" s = [a; b; c]
    /\ Root.digitsBetween 1 2 a = true
    /\ Root.digitsBetween 1 2 b = true
    /\ Root.digitsBetween 4 4 c = true.
Proof.
  unfold Root.matchesMDY.
  destruct (split "/" s) as [|a [|b [|c [|d l]]]]; try discriminate.
  intros H. apply andb_true_iff in H as [H Hc]. apply andb_true_iff in H as [Ha Hb].
  now exists a, b, c.
Qed.

(** C2, as amended. The calendar-date coercion of the fixed parser is a
    total function whose result is fixed, in this order, by: null for
    null and undefined; a valid date unchanged; null for a number below
    1000; for a number strictly between 1000 and 100000, local midnight
    of the day obtained by adding its whole days to 1899-12-30; for any
    other number below 10,000,000,000 (1000 included) the instant that
    many seconds after the Unix epoch; for any other number the instant
    that many milliseconds after it; null for a string that is empty or
    blank; and for a string whose trimmed form matches
    [\d{1,2}/\d{1,2}/\d{4}] the local date of that month, day and
    year. *)
Theorem parseDate_resolution_order (h : Host) :
  Fixed.parseDate h VNull = None
  /\ Fixed.parseDate h VUndefined = None
  /\ (forall d, Fixed.parseDate h (VDate d) = if isValidDate d then Some d else None)
  /\ (forall x, (x <? 1000)%float = true -> Fixed.parseDate h (VNum x) = None)
  /\ (forall x, (1000 <? x)%float = true -> (x <? 100000)%float = true ->
        Fixed.parseDate h (VNum x) =
        Some match truncate (30 + x)%float with
             | Some k => LocalDate ((daysFromCivil 1899 12 30 + (k - 30)) * msPerDay)
             | None => InvalidDate
             end)
  /\ (forall n, 1000 < n < 100000 ->
        Fixed.parseDate h (VNum (ofZ n)) =
        Some (LocalDate ((daysFromCivil 1899 12 30 + n) * msPerDay)))
  /\ (forall x, (x <? 1000)%float = false ->
        ((1000 <? x) && (x <? 100000))%float = false ->
        (x <? 10000000000)%float = true ->
        Fixed.parseDate h (VNum x) = Some (newDateOfNumber (x * 1000)%float))
  /\ (forall x, (x <? 1000)%float = false ->
        (x <? 10000000000)%float = false ->
        Fixed.parseDate h (VNum x) = Some (newDateOfNumber x))
  /\ (forall s, trim s = "" -> Fixed.parseDate h (VStr s) = None)
  /\ (forall s, Root.matchesMDY (trim s) = true ->
        exists month day year,
          map numberOfDigits (split "/" (trim s)) = [month; day; year]
          /\ Fixed.parseDate h (VStr s) = Some (newDateYMD year (month - 1) day)).
Proof.
  split; [reflexivity|]. split; [reflexivity|].
  split; [reflexivity|].
  split; [|split; [|split; [|split; [|split; [|split]]]]].
  - intros x Hx. unfold Fixed.parseDate. now rewrite Hx.
  - intros x H1 H2. unfold Fixed.parseDate.
    rewrite (ltb_asym H1), H1, H2. simpl. now rewrite dateOfSerial_value.
  - apply parseDate_serial_integer.
  - intros x H1 H2 H3. unfold Fixed.parseDate. now rewrite H1, H2, H3.
  - intros x H1 H3. unfold Fixed.parseDate. rewrite H1, H3.
    destruct (x <? 100000)%float eqn:H2.
    + rewrite (@ltb_trans x 100000 10000000000 H2 eq_refl) in H3. discriminate.
    + now rewrite andb_false_r.
  - intros s Hs. unfold Fixed.parseDate. now rewrite Hs.
  - intros s Hs. destruct (matchesMDY_parts _ Hs) as (a & b & c & Hsplit & Ha & Hb & Hc).
    exists (numberOfDigits a), (numberOfDigits b), (numberOfDigits c).
    split; [now rewrite Hsplit|].
    unfold Fixed.parseDate. rewrite Hs.
    destruct (String.eqb (trim s) "") eqn:E.
    + apply String.eqb_eq in E. rewrite E in Hs. discriminate.
    + unfold Root.dateOfMDY. now rewrite Hsplit.
Qed.

(** 44197 is a day of 2021, the first of January. *)
Lemma parseDate_resolution_order_witness :
  Fixed.parseDate utcHost (VNum 44197%float) = Some (LocalDate 1609459200000)
  /\ yearOfLocal 1609459200000 = 2021
  /\ civilFromDays (1609459200000 / msPerDay) = (2021, 1, 1).
Proof.
  split; [|split; reflexivity].
  exact (proj1 (proj2 (proj2 (proj2 (proj2 (proj2 (parseDate_resolution_order utcHost))))))
           44197 (conj eq_refl eq_refl)).
Defined.

Example parseDate_mdy :
  Fixed.parseDate utcHost (VStr "01/15/2023") = Some (newDateYMD 2023 0 15)
  /\ newDateYMD 2023 0 15 = LocalDate (daysFromCivil 2023 1 15 * msPerDay)
  /\ civilFromDays (daysFromCivil 2023 1 15) = (2023, 1, 15).
Proof. repeat split. Qed.

Example parseDate_empty : Fixed.parseDate utcHost (VStr "") = None.
Proof. reflexivity. Qed.

Example parseDate_seconds :
  Fixed.parseDate utcHost (VNum 1000%float) = Some (Instant 1000000).
Proof. reflexivity. Qed.

Example parseDate_nan : Fixed.parseDate utcHost (VNum nan) = Some InvalidDate.
Proof. reflexivity. Qed.

(** C2 as stated fails for the fixed parser: 500 is a number below
    10,000,000,000 outside the serial range, so the stated order makes it
    500 seconds after the epoch, and the parser returns null. *)
Lemma parseDate_small_number_counterexample :
  Spec.parseDate utcHost (VNum 500%float) = Some (Some (Instant 500000))
  /\ Fixed.parseDate utcHost (VNum 500%float) = None
  /\ Some (Fixed.parseDate utcHost (VNum 500%float))
     <> Spec.parseDate utcHost (VNum 500%float).
Proof.
  repeat split; try reflexivity. vm_compute. discriminate.
Qed.

(** The copy in root.tsx follows the stated order, given a host whose
    [Date] rejects blank strings. *)
Lemma root_parseDate_follows_order (h : Host) (v : value) (r : option date) :
  (forall s, trim s = "" -> dateParse h s = None) ->
  Spec.parseDate h v = Some r -> Root.parseDate h v = r.
Proof.
  intros Hblank. destruct v as [| |b|x|s|d|o]; simpl; try congruence.
  - destruct ((1000 <? x) && (x <? 100000))%float; [congruence|].
    destruct (x <? 10000000000)%float; congruence.
  - destruct (Root.matchesMDY s); [congruence|].
    destruct (String.eqb (trim s) "") eqn:E; [|discriminate].
    apply String.eqb_eq in E. intros H. inversion H. subst r.
    unfold newDateOfString. now rewrite (Hblank s E).
Qed.

End DateFacts.

(* ===================================================================== *)
(** ** The batch persister *)
(* ===================================================================== *)

Module PersisterFacts.
Import JSValue Root TraceSpec.

Lemma chunksFuel_irrelevant (A : Type) (size : nat) :
  0 < size ->
  forall fuel fuel' (l : list A),
    List.length l <= fuel -> List.length l <= fuel' ->
    chunksFuel fuel size l = chunksFuel fuel' size l.
Proof.
  intros Hs. induction fuel as [|f IH]; intros fuel' l Hl Hl'.
  - destruct l; [now destruct fuel'|simpl in Hl; lia].
  - destruct l as [|a l]; [now destruct fuel'|].
    destruct fuel' as [|f']; [simpl in Hl'; lia|].
    cbn [chunksFuel]. f_equal.
    apply IH; rewrite length_skipn; cbn [List.length] in *; lia.
Qed.

Lemma chunksFuel_enough (A : Type) (size : nat) :
  0 < size ->
  forall fuel (l : list A), List.length l <= fuel ->
  chunksFuel fuel size l = chunks size l.
Proof.
  intros Hs fuel l Hl. unfold chunks. now apply chunksFuel_irrelevant.
Qed.

Lemma chunks_cons (A : Type) (size : nat) (l : list A) :
  0 < size -> l <> [] ->
  chunks size l = firstn size l :: chunks size (skipn size l).
Proof.
  intros Hs Hl. destruct l as [|a l]; [contradiction|].
  unfold chunks at 1. cbn [List.length chunksFuel]. f_equal.
  apply chunksFuel_enough; [exact Hs|].
  rewrite length_skipn. cbn [List.length]. lia.
Qed.

Lemma savedOf_app (a b : list event) : savedOf (a ++ b) = savedOf a + savedOf b.
Proof. unfold savedOf. now rewrite map_app, list_sum_app. Qed.

Lemma savedOf_cons (e : event) (t : list event) :
  savedOf (e :: t) = savedBy e + savedOf t.
Proof. reflexivity. Qed.

Lemma individualEvents_saved (printRecord : bool) (r : record) rest :
  individualEvents printRecord ((r, true) :: rest) =
  Create r true :: individualEvents printRecord rest.
Proof. reflexivity. Qed.

Lemma individualEvents_failed (printRecord : bool) (r : record) rest :
  individualEvents printRecord ((r, false) :: rest) =
  [Create r false] ++
  (Log FailedIndividualRecord ::
     (if printRecord then [Log (ProblematicRecord r)] else []))
  ++ individualEvents printRecord rest.
Proof. reflexivity. Qed.

Lemma savedOf_failure_lines (printRecord : bool) (r : record) :
  savedOf (Log FailedIndividualRecord ::
             (if printRecord then [Log (ProblematicRecord r)] else [])) = 0.
Proof. now destruct printRecord. Qed.










Section Persister.
Variable DB : Type.
Variable createMany : list record -> DB -> bool * DB.
Variable create : record -> DB -> bool * DB.
Variable prepare : record -> record.
Variable printRecord : bool.

Lemma trace_emit (e : event) (w : world DB) : trace (emit e w) = trace w ++ [e].
Proof. reflexivity. Qed.

(** Every record of the batch is attempted, whatever the outcome of the
    ones before it. *)
Lemma saveIndividually_trace (batch : list record) :
  forall savedCount w,
  exists outcomes,
    List.length outcomes = List.length batch
    /\ trace (snd (saveIndividually create printRecord batch savedCount w)) =
       trace w ++ individualEvents printRecord (combine batch outcomes)
    /\ fst (saveIndividually create printRecord batch savedCount w) =
       savedCount + savedOf (individualEvents printRecord (combine batch outcomes)).
Proof.
  induction batch as [|r rest IH]; intros savedCount w.
  - exists []. cbn. rewrite app_nil_r. repeat split. lia.
  - cbn [saveIndividually].
    destruct (create r (store w)) as [ok db'] eqn:E.
    destruct ok.
    + destruct (IH (S savedCount)
                  (emit (Create r true) {| store := db'; trace := trace w |}))
        as (oks & Hlen & Ht & Hs).
      exists (true :: oks). split; [simpl; now rewrite Hlen|].
      rewrite Ht, Hs. cbn [combine]. rewrite individualEvents_saved.
      rewrite trace_emit. cbn [trace]. rewrite <- app_assoc. split; [reflexivity|].
      rewrite savedOf_cons. cbn [savedBy]. lia.
    + assert (Hstep : exists w',
                 trace w' = trace w ++ [Create r false] ++
                   (Log FailedIndividualRecord ::
                      (if printRecord then [Log (ProblematicRecord r)] else []))
                 /\ saveIndividually create printRecord (r :: rest) savedCount w =
                    saveIndividually create printRecord rest savedCount w').
      { cbn [saveIndividually]. rewrite E.
        destruct printRecord; eexists; (split; [|reflexivity]);
          rewrite !trace_emit; cbn [trace]; rewrite <- ?app_assoc; reflexivity. }
      destruct Hstep as (w' & Hw' & Heq).
      cbn [saveIndividually] in Heq. rewrite E in Heq. rewrite Heq.
      destruct (IH savedCount w') as (oks & Hlen & Ht & Hs).
      exists (false :: oks). split; [simpl; now rewrite Hlen|].
      rewrite Ht, Hs, Hw'. cbn [combine]. rewrite individualEvents_failed.
      rewrite <- !app_assoc. split; [reflexivity|].
      rewrite !savedOf_app, savedOf_failure_lines. cbn. lia.
Qed.

Lemma slice_batch (A : Type) (i : nat) (data : list A) :
  slice i (i + batchSize) data = firstn batchSize (skipn i data).
Proof. unfold slice. now rewrite Nat.add_comm, Nat.add_sub. Qed.

(** One iteration: the batch is sent as a whole, and on failure record
    by record. *)
Lemma saveBatch_trace (data : list record) (i savedCount : nat) (w : world DB) :
  exists t,
    batchTrace printRecord (i / batchSize + 1)
      ((List.length data + batchSize - 1) / batchSize)
      (map prepare (firstn batchSize (skipn i data))) t
    /\ trace (snd (saveBatch createMany create prepare printRecord data i savedCount w)) =
       trace w ++ t
    /\ fst (saveBatch createMany create prepare printRecord data i savedCount w) =
       savedCount + savedOf t.
Proof.
  unfold saveBatch. rewrite slice_batch.
  set (batch := firstn batchSize (skipn i data)).
  set (number := i / batchSize + 1).
  set (total := (List.length data + batchSize - 1) / batchSize).
  cbn [store emit].
  destruct (createMany (map prepare batch) (store w)) as [ok db'].
  destruct ok.
  - eexists. split; [apply bulkSaved|].
    cbn [fst snd]. repeat (rewrite trace_emit; cbn [trace]).
    rewrite length_map, <- app_assoc.
    split; [reflexivity|]. rewrite !savedOf_cons. cbn. rewrite length_map. lia.
  - match goal with
    | |- context [saveIndividually create printRecord ?b ?s ?w0] =>
        destruct (saveIndividually_trace b s w0) as (oks & Hlen & Ht & Hs)
    end.
    eexists. split; [apply (bulkFailed printRecord number total _ oks Hlen)|].
    rewrite Ht, Hs. repeat (rewrite trace_emit; cbn [trace]).
    rewrite length_map, <- !app_assoc.
    split; [reflexivity|].
    cbn [app]. rewrite !savedOf_cons. cbn [savedBy]. lia.
Qed.

Lemma skipn_nil_iff (A : Type) (i : nat) (data : list A) :
  (i <? List.length data) = false -> skipn i data = [].
Proof. intros H. apply Nat.ltb_ge in H. now apply skipn_all2. Qed.

(** The loop: the batches are the consecutive slices of 50 records, in
    order, and no failure stops it. *)
Lemma saveLoop_trace (data : list record) :
  forall fuel i savedCount w,
    List.length data - i <= fuel ->
    exists ts,
      batchTraces printRecord ((List.length data + batchSize - 1) / batchSize)
        (i / batchSize + 1) (chunks batchSize (map prepare (skipn i data))) ts
      /\ trace (snd (saveLoop createMany create prepare printRecord fuel data i savedCount w)) =
         trace w ++ List.concat ts
      /\ fst (saveLoop createMany create prepare printRecord fuel data i savedCount w) =
         savedCount + savedOf (List.concat ts).
Proof.
  induction fuel as [|f IH]; intros i savedCount w Hfuel.
  - exists []. cbn [saveLoop fst snd List.concat]. rewrite app_nil_r.
    rewrite skipn_all2 by lia. cbn. repeat split. lia.
  - cbn [saveLoop]. destruct (i <? List.length data) eqn:Hi.
    + apply Nat.ltb_lt in Hi.
      destruct (saveBatch_trace data i savedCount w) as (t & Hb & Ht & Hs).
      destruct (saveBatch createMany create prepare printRecord data i savedCount w)
        as [saved' w'] eqn:E. cbn [fst snd] in Ht, Hs.
      destruct (IH (i + batchSize) saved' w') as (ts & Hbs & Hts & Hss).
      { unfold batchSize. lia. }
      exists (t :: ts). split; [|split].
      * rewrite chunks_cons; [|unfold batchSize; lia|].
        -- cbn [batchTraces]. rewrite firstn_map. split; [exact Hb|].
           rewrite skipn_map, skipn_skipn.
           replace (S (i / batchSize + 1)) with ((i + batchSize) / batchSize + 1).
           ++ rewrite (Nat.add_comm batchSize i). exact Hbs.
           ++ replace (i + batchSize) with (i + 1 * batchSize) by lia.
              rewrite Nat.div_add by (unfold batchSize; lia). lia.
        -- intros Hnil. apply (f_equal (@List.length _)) in Hnil.
           rewrite length_map, length_skipn in Hnil. simpl in Hnil. lia.
      * rewrite Hts, Ht. cbn [List.concat]. now rewrite app_assoc.
      * rewrite Hss, Hs. cbn [List.concat]. rewrite savedOf_app. lia.
    + exists []. cbn [fst snd List.concat]. rewrite app_nil_r.
      rewrite (skipn_nil_iff _ _ Hi). cbn. repeat split. lia.
Qed.

(** The whole of [saveDataToDatabase]. *)
Lemma saveDataWith_trace (data : list record) (db : DB) :
  match data with
  | [] =>
      trace (saveDataWith createMany create prepare printRecord data db) =
      [Log (StartingSave 0); Log NoDataToSave]
  | _ =>
      exists ts,
        batchTraces printRecord ((List.length data + batchSize - 1) / batchSize) 1
          (chunks batchSize (map prepare data)) ts
        /\ trace (saveDataWith createMany create prepare printRecord data db) =
           Log (StartingSave (List.length data)) :: List.concat ts
           ++ [Log (SaveComplete (savedOf (List.concat ts)) (List.length data))]
  end.
Proof.
  destruct data as [|r data]; [reflexivity|].
  unfold saveDataWith. cbn [List.length Nat.eqb].
  set (d := r :: data). change (S (List.length data)) with (List.length d).
  match goal with
  | |- context [saveLoop _ _ _ _ ?f d 0 0 ?w0] =>
      destruct (@saveLoop_trace d f 0 0 w0) as (ts & Hbs & Ht & Hs); [lia|]
  end.
  destruct (saveLoop createMany create prepare printRecord (List.length d) d 0 0 _)
    as [saved w'] eqn:E. cbn [fst snd] in Ht, Hs.
  exists ts. split; [exact Hbs|].
  rewrite trace_emit, Ht, Hs. reflexivity.
Qed.

End Persister.


(** The copy in root.tsx behaves alike, except that the content of a
    failing record is not printed. *)
Lemma root_saveDataToDatabase_trace (DB : Type)
  (createMany : list record -> DB -> bool * DB)
  (create : record -> DB -> bool * DB)
  (data : list record) (db : DB) :
  data <> [] ->
  exists ts,
    batchTraces false ((List.length data + batchSize - 1) / batchSize) 1
      (chunks batchSize data) ts
    /\ trace (Root.saveDataToDatabase createMany create data db) =
       Log (StartingSave (List.length data)) :: List.concat ts
       ++ [Log (SaveComplete (savedOf (List.concat ts)) (List.length data))].
Proof.
  intros Hd.
  pose proof (saveDataWith_trace createMany create (fun r => r) false data db) as H.
  destruct data as [|r data]; [contradiction|].
  rewrite map_id in H. exact H.
Qed.

End PersisterFacts.

(* ===================================================================== *)
(** ** The aggregation engine: one summary per bucket *)
(* ===================================================================== *)

Module EngineFacts.
Import JSString JSNumber JSObject JSValue ObjectFacts SummarySpec.
Local Open Scope string_scope.

Section Engine.
Variable DB : Type.
Variable count : record -> DB -> option Z * DB.
Variable findMany : record -> DB -> option (list (option number)) * DB.
Variable upsert : record -> record -> record -> DB -> bool * DB.



End Engine.




Example zero_count_bucket :
  fst (Store.calculateMetrics [] emptyStore) =
  map (fun l => Root.zeroSummary l 0 []) Root.levelsOfCare.
Proof. reflexivity. Qed.


End EngineFacts.

(* ===================================================================== *)
(** ** The summary table *)
(* ===================================================================== *)

Module SummaryStoreFacts.
Import JSString JSNumber JSObject JSValue ObjectFacts.
Local Open Scope string_scope.

(** The key of the upsert gives every filter dimension a value: the
    filter's, or the empty string or zero in its place. *)
Lemma metricsKey_sentinels (levelOfCare : string) :
  Root.metricsKey levelOfCare [] =
  [ ("levelOfCare", VStr levelOfCare);
    ("stateTreatedAt", VStr ""); ("payerName", VStr ""); ("payerClass", VStr "");
    ("serviceYear", VNum zero); ("paymentReceivedYear", VNum zero) ].
Proof. reflexivity. Qed.

(** An upsert whose key selects a stored row rewrites that row: the
    table keeps its length. *)
Lemma updateFirst_length (key update : record) (rows : list record) :
  forall rows', Store.updateFirst key update rows = Some rows' ->
  List.length rows' = List.length rows.
Proof.
  induction rows as [|row rest IH]; simpl; intros rows' H; [discriminate|].
  destruct (Store.selects key row).
  - injection H as <-. reflexivity.
  - destruct (Store.updateFirst key update rest) as [rest'|]; [|discriminate].
    injection H as <-. simpl. now rewrite (IH rest').
Qed.

(** A row that leaves [stateTreatedAt] unset is selected by no key. *)
Lemma unset_dimension_not_selected (key row : record) :
  get "stateTreatedAt" row = None -> Store.selects key row = false.
Proof.
  intros H. unfold Store.selects, Store.keyColumns. cbn [forallb].
  unfold Store.column at 2, getProp. rewrite H. cbn [Store.sqlEq].
  now rewrite andb_false_r.
Qed.

(** The row the engine stores carries the filters as they were given: a
    dimension missing from the filters is missing from the row, where
    the key has its stand-in. *)
Lemma stored_summary_unset (levelOfCare : string) (c : Z) (a mn mx md mo : number)
  (filters : record) :
  get "stateTreatedAt" filters = None ->
  get "stateTreatedAt"
    (Store.rowOf (Root.summary levelOfCare c a mn mx md mo filters)) = None.
Proof.
  intros H. unfold Store.rowOf. apply get_filter_none.
  unfold Root.summary. now rewrite get_spread_other.
Qed.

(** Hence the key of a later run never selects the row an earlier run
    stored for the same bucket and filters, unless the filters name
    [stateTreatedAt]. *)
Lemma recompute_key_misses_own_row (levelOfCare : string) (c : Z)
  (a mn mx md mo : number) (filters : record) :
  get "stateTreatedAt" filters = None ->
  Store.selects (Root.metricsKey levelOfCare filters)
    (Store.rowOf (Root.summary levelOfCare c a mn mx md mo filters)) = false.
Proof.
  intros H. apply unset_dimension_not_selected. now apply stored_summary_unset.
Qed.

Lemma updateFirst_unselected (key update : record) (rows : list record) :
  (forall row, In row rows -> Store.selects key row = false) ->
  Store.updateFirst key update rows = None.
Proof.
  induction rows as [|row rest IH]; simpl; intros H; [reflexivity|].
  rewrite (H row (or_introl eq_refl)), IH; auto.
Qed.

Lemma existsb_unselected (key : record) (rows : list record) :
  (forall row, In row rows -> Store.selects key row = false) ->
  existsb (Store.conflicts key) rows = false.
Proof.
  induction rows as [|row rest IH]; simpl; intros H; [reflexivity|].
  unfold Store.conflicts at 1. rewrite (H row (or_introl eq_refl)), IH; auto.
Qed.

(** Over a summary table whose rows leave [stateTreatedAt] unset, as the
    engine's own rows do when the filters do not name it, every upsert
    of the engine adds a row. *)
Lemma engine_upsert_appends (levelOfCare : string) (c : Z) (a mn mx md mo : number)
  (filters : record) (st : Store.store) :
  get "stateTreatedAt" filters = None ->
  (forall row, In row (Store.calculatedMetrics st) -> get "stateTreatedAt" row = None) ->
  let metrics := Root.summary levelOfCare c a mn mx md mo filters in
  Store.upsert (Root.metricsKey levelOfCare filters) metrics metrics st =
  (true, {| Store.claimRecords := Store.claimRecords st;
            Store.calculatedMetrics :=
              (Store.calculatedMetrics st ++ [Store.rowOf metrics])%list |}).
Proof.
  intros Hf Hrows metrics. unfold Store.upsert.
  rewrite updateFirst_unselected.
  - rewrite existsb_unselected; [reflexivity|].
    intros row Hin. apply unset_dimension_not_selected. now apply Hrows.
  - intros row Hin. apply unset_dimension_not_selected. now apply Hrows.
Qed.

(** C6 on the code: two runs with no filter over a store with one DETOX
    record leave two rows for the bucket DETOX, equal in every column. *)
Lemma recompute_duplicates_row :
  let st1 := snd (Store.calculateMetrics [] oneClaimStore) in
  let st2 := snd (Store.calculateMetrics [] st1) in
  List.length (Store.rowsOfBucket "DETOX" st1) = 1
  /\ List.length (Store.rowsOfBucket "DETOX" st2) = 2
  /\ nth 0 (Store.calculatedMetrics st2) [] = nth 1 (Store.calculatedMetrics st2) [].
Proof. repeat split. Qed.

(** With every dimension of the key given by the filters, and stored
    with the row, the second upsert rewrites the row of the first. *)
Lemma upsert_overwrites_when_key_stored :
  let filters :=
    [ ("stateTreatedAt", VStr "CA"); ("payerName", VStr "Aetna");
      ("payerClass", VStr "Commercial"); ("serviceYear", VNum 2023%float);
      ("paymentReceivedYear", VNum 2023%float) ] in
  let key := Root.metricsKey "DETOX" filters in
  let first := Root.computedSummary "DETOX" 1 [100%float] filters in
  let second := Root.computedSummary "DETOX" 2 [100%float; 50%float] filters in
  let st1 := snd (Store.upsert key first first emptyStore) in
  let st2 := snd (Store.upsert key second second st1) in
  List.length (Store.calculatedMetrics st1) = 1
  /\ Store.calculatedMetrics st2 = [Store.rowOf second].
Proof. repeat split. Qed.

End SummaryStoreFacts.

(* ===================================================================== *)
(** ** The mode *)
(* ===================================================================== *)

Module ModeFacts.
Import JSString JSNumber JSObject JSValue ObjectFacts TallySpec.
Local Open Scope Z_scope.

Section Dictionary.
Variable V : Type.









End Dictionary.


Section Dictionary2.
Variable V : Type.




End Dictionary2.

(** *** The tally *)











(** *** The loop over the entries *)





Example mode_example : Root.mode [10; 20; 20; 30]%float = 20%float.
Proof. reflexivity. Qed.

Example mode_iteration_order :
  map fst (entries (Root.frequencyOf [20; 10; 2.5; 20; -1; 3]%float))
  = ["3"; "10"; "20"; "2.5"; "-1"]%string.
Proof. reflexivity. Qed.

Example mode_fractions_first_seen : Root.mode [2.5; 1.5; 1.5; 2.5]%float = 2.5%float.
Proof. reflexivity. Qed.


End ModeFacts.

(* ===================================================================== *)
(** ** The comparator [(a, b) => a - b] *)
(* ===================================================================== *)

Module SubtractionFacts.
Import Binary64 FloatFacts.
Local Open Scope Z_scope.

(** Alignment to a lower exponent multiplies the mantissa. *)
Lemma shl_align_value (m : positive) (e e' : Z) :
  e' <= e ->
  Z.pos (fst (shl_align m e e')) = Z.pos m * 2 ^ (e - e')
  /\ snd (shl_align m e e') = e'.
Proof.
  intros H. unfold shl_align.
  destruct (e' - e) as [|p|p] eqn:E; try lia.
  - assert (e = e') by lia. subst. rewrite Z.sub_diag. simpl. lia.
  - cbn [fst snd]. rewrite iter_xO. split; [|reflexivity].
    f_equal. f_equal. lia.
Qed.

Lemma shl_align_geq (m : positive) (e e' : Z) :
  e <= e' -> shl_align m e e' = (m, e).
Proof.
  intros H. unfold shl_align. destruct (e' - e) as [|p|p] eqn:E; try reflexivity. lia.
Qed.

Lemma shr_1_m (mrs : shr_record) : 0 <= shr_m mrs -> shr_m (shr_1 mrs) = shr_m mrs / 2.
Proof.
  destruct mrs as [m r s]. cbn [shr_m]. intros Hm.
  destruct m as [|[p|p|]|p]; cbn [shr_1 shr_m]; try lia.
  - reflexivity.
  - rewrite Pos2Z.inj_xI. apply Z.div_unique with 1; lia.
  - rewrite Pos2Z.inj_xO. apply Z.div_unique with 0; lia.
  - reflexivity.
Qed.

Lemma pow2_double (p : positive) : 2 ^ Z.pos p~0 = 2 ^ Z.pos p * 2 ^ Z.pos p.
Proof. rewrite Pos2Z.inj_xO, <- Z.pow_add_r by lia. f_equal. lia. Qed.

Lemma pow2_double_succ (p : positive) : 2 ^ Z.pos p~1 = 2 * (2 ^ Z.pos p * 2 ^ Z.pos p).
Proof.
  rewrite Pos2Z.inj_xI, <- Z.pow_add_r, <- Z.pow_succ_r by lia. f_equal. lia.
Qed.

Lemma iter_shr_1_m (p : positive) :
  forall mrs, 0 <= shr_m mrs ->
  shr_m (iter_pos shr_1 p mrs) = shr_m mrs / 2 ^ Z.pos p.
Proof.
  induction p as [p IH|p IH|]; intros mrs Hm; cbn [iter_pos].
  - assert (Hp : 0 < 2 ^ Z.pos p) by (apply Z.pow_pos_nonneg; lia).
    assert (H1 : 0 <= shr_m (shr_1 mrs)) by (rewrite shr_1_m by exact Hm; apply Z.div_pos; lia).
    assert (H2 : 0 <= shr_m (iter_pos shr_1 p (shr_1 mrs)))
      by (rewrite IH by exact H1; apply Z.div_pos; [exact H1|exact Hp]).
    rewrite IH by exact H2. rewrite IH by exact H1. rewrite shr_1_m by exact Hm.
    rewrite !Z.div_div by lia. now rewrite pow2_double_succ.
  - assert (Hp : 0 < 2 ^ Z.pos p) by (apply Z.pow_pos_nonneg; lia).
    assert (H2 : 0 <= shr_m (iter_pos shr_1 p mrs))
      by (rewrite IH by exact Hm; apply Z.div_pos; [exact Hm|exact Hp]).
    rewrite IH by exact H2. rewrite IH by exact Hm.
    rewrite !Z.div_div by lia. now rewrite pow2_double.
  - rewrite shr_1_m by exact Hm. reflexivity.
Qed.

Lemma fexp_ge_emin (e : Z) : emin64 <= fexp prec emax e.
Proof. unfold fexp, emin64. lia. Qed.

Lemma shr_record_of_loc_m (m : Z) (l : location) : shr_m (shr_record_of_loc m l) = m.
Proof. destruct l as [|[| |]]; reflexivity. Qed.

(** Rounding to the format does not lose a non-zero mantissa whose
    exponent is at least the least exponent. *)
Lemma shr_fexp_pos (m : positive) (e : Z) (l : location) :
  emin64 <= e ->
  0 < shr_m (fst (shr_fexp prec emax (Z.pos m) e l))
  /\ emin64 <= snd (shr_fexp prec emax (Z.pos m) e l).
Proof.
  intros He. unfold shr_fexp, shr. cbn [Zdigits2].
  pose proof (digits2_pos_bounds m) as Hd.
  set (d := Z.pos (digits2_pos m)) in *.
  destruct (fexp prec emax (d + e) - e) as [|q|q] eqn:En; cbn [fst snd];
    rewrite ?shr_record_of_loc_m; try (split; [lia|exact He]).
  rewrite iter_shr_1_m by (rewrite shr_record_of_loc_m; lia).
  rewrite shr_record_of_loc_m.
  assert (Hq : Z.pos q = d - prec).
  { unfold fexp in En. unfold emin64 in He. lia. }
  split; [|lia].
  apply Z.div_str_pos. split; [apply Z.pow_pos_nonneg; lia|].
  apply Z.le_trans with (2 ^ (d - 1)); [|lia].
  apply Z.pow_le_mono_r; [lia|]. rewrite Hq. unfold prec. lia.
Qed.

Lemma round_nearest_even_pos (m : Z) (l : location) :
  0 < m -> 0 < round_nearest_even m l.
Proof.
  intros Hm. destruct l as [|[| |]]; cbn [round_nearest_even]; try lia.
  destruct (Z.even m); lia.
Qed.

Lemma binary_round_aux_signed (s : bool) (m : positive) (e : Z) (l : location) :
  emin64 <= e -> signed s (binary_round_aux prec emax s (Z.pos m) e l).
Proof.
  intros He. unfold binary_round_aux.
  destruct (shr_fexp_pos m l He) as [H1 H2].
  destruct (shr_fexp prec emax (Z.pos m) e l) as [mrs' e'] eqn:E1. cbn [fst snd] in H1, H2.
  pose proof (round_nearest_even_pos (loc_of_shr_record mrs') H1) as Hr.
  destruct (round_nearest_even (shr_m mrs') (loc_of_shr_record mrs')) as [|m'|m'] eqn:E2; try lia.
  destruct (shr_fexp_pos m' loc_Exact H2) as [H3 H4].
  destruct (shr_fexp prec emax (Z.pos m') e' loc_Exact) as [mrs'' e''] eqn:E3.
  cbn [fst snd] in H3, H4.
  destruct (shr_m mrs'') as [|m''|m'']; try lia.
  destruct (e'' <=? emax - prec); constructor.
Qed.

Lemma binary_round_signed (s : bool) (m : positive) (e : Z) :
  emin64 <= e -> signed s (binary_round prec emax s m e).
Proof.
  intros He. unfold binary_round.
  set (t := fexp prec emax (Z.pos (digits2_pos m) + e)).
  destruct (Z.le_gt_cases e t) as [Hle|Hgt].
  - rewrite shl_align_geq by exact Hle. now apply binary_round_aux_signed.
  - destruct (shl_align m e t) as [mz ez] eqn:E.
    pose proof (shl_align_value m (e:=e) (e':=t)) as Hv. rewrite E in Hv. cbn [fst snd] in Hv.
    destruct Hv as [_ Hez]; [lia|]. subst ez.
    apply binary_round_aux_signed. apply fexp_ge_emin.
Qed.

Lemma SFltb_signed_zero (s : bool) (x : spec_float) :
  signed s x -> SFltb x (S754_zero false) = s.
Proof. intros [m e|]; destruct s; reflexivity. Qed.

(** An integer multiple of the unit of exponent [e] is negative exactly
    when its rounding is below zero. *)
Lemma binary_normalize_neg (d e : Z) :
  emin64 <= e ->
  SFltb (binary_normalize prec emax d e false) (S754_zero false) = (d <? 0).
Proof.
  intros He. destruct d as [|p|p]; cbn [binary_normalize].
  - reflexivity.
  - now rewrite (SFltb_signed_zero (binary_round_signed false p He)).
  - now rewrite (SFltb_signed_zero (binary_round_signed true p He)).
Qed.

(** What validity says of a finite number. *)
Lemma canonical_bounds (m : positive) (e : Z) :
  canonical_mantissa prec emax m e = true ->
  emin64 <= e
  /\ Z.pos m < 2 ^ prec
  /\ (emin64 < e -> 2 ^ (prec - 1) <= Z.pos m).
Proof.
  unfold canonical_mantissa, fexp, emin64. intros H. apply Z.eqb_eq in H.
  pose proof (digits2_pos_bounds m) as Hd.
  set (d := Z.pos (digits2_pos m)) in *.
  split; [lia|]. split.
  - apply Z.lt_le_trans with (2 ^ d); [lia|].
    apply Z.pow_le_mono_r; lia.
  - intros He. assert (d = prec) by lia. now subst d; rewrite <- H0.
Qed.

(** Canonical numbers are ordered by exponent, then by mantissa. *)
Lemma canonical_lt (m1 m2 : positive) (e1 e2 : Z) :
  canonical_mantissa prec emax m1 e1 = true ->
  canonical_mantissa prec emax m2 e2 = true ->
  (Z.pos m1 * 2 ^ (e1 - Z.min e1 e2) < Z.pos m2 * 2 ^ (e2 - Z.min e1 e2)
   <-> e1 < e2 \/ (e1 = e2 /\ (m1 < m2)%positive)).
Proof.
  intros H1 H2.
  destruct (canonical_bounds _ _ H1) as (He1 & Hu1 & Hl1).
  destruct (canonical_bounds _ _ H2) as (He2 & Hu2 & Hl2).
  assert (Hpow : forall k, 0 < k -> 2 <= 2 ^ k).
  { intros k Hk. change 2 with (2 ^ 1) at 1. apply Z.pow_le_mono_r; lia. }
  assert (Hprec : 2 ^ prec = 2 * 2 ^ (prec - 1)) by reflexivity.
  destruct (Z.lt_trichotomy e1 e2) as [Hlt|[Heq|Hgt]].
  - rewrite Z.min_l, Z.sub_diag, Z.mul_1_r by lia.
    specialize (Hl2 ltac:(lia)). specialize (Hpow (e2 - e1) ltac:(lia)).
    split; [intros _; now left|intros _]. nia.
  - subst e2. rewrite Z.min_id, Z.sub_diag, !Z.mul_1_r.
    split; [intros H; right; split; [reflexivity|exact H]|].
    intros [H|[_ H]]; [lia|exact H].
  - rewrite Z.min_r, Z.sub_diag, Z.mul_1_r by lia.
    specialize (Hl1 ltac:(lia)). specialize (Hpow (e1 - e2) ltac:(lia)).
    split; [intros H; exfalso; nia|intros [H|[H _]]; lia].
Qed.

Lemma valid_finite (s : bool) (m : positive) (e : Z) :
  SpecFloat.valid_binary prec emax (S754_finite s m e) = true ->
  canonical_mantissa prec emax m e = true.
Proof. cbn [valid_binary]. unfold bounded. intros H. now apply andb_true_iff in H. Qed.

(** The difference of two valid numbers, neither NaN, is below zero
    exactly when the first is below the second. *)
Lemma SFsub_neg (x y : spec_float) :
  SpecFloat.valid_binary prec emax x = true ->
  SpecFloat.valid_binary prec emax y = true ->
  x <> S754_nan -> y <> S754_nan ->
  SFltb (SFsub prec emax x y) (S754_zero false) = SFltb x y.
Proof.
  intros Vx Vy Nx Ny.
  destruct x as [sx|sx| |sx mx ex], y as [sy|sy| |sy my ey];
    try contradiction; try (destruct sx, sy; reflexivity);
    try (destruct sx; reflexivity); try (destruct sy; reflexivity).
  apply valid_finite in Vx, Vy.
  destruct (canonical_bounds _ _ Vx) as (Hex & _ & _).
  destruct (canonical_bounds _ _ Vy) as (Hey & _ & _).
  cbn [SFsub]. rewrite binary_normalize_neg by lia.
  destruct (shl_align_value mx (e:=ex) (e':=Z.min ex ey)) as [Ha _]; [lia|].
  destruct (shl_align_value my (e:=ey) (e':=Z.min ex ey)) as [Hb _]; [lia|].
  rewrite Ha, Hb.
  pose proof (@canonical_lt mx my ex ey Vx Vy) as Hxy.
  pose proof (@canonical_lt my mx ey ex Vy Vx) as Hyx. rewrite (Z.min_comm ey ex) in Hyx.
  set (a := Z.pos mx * 2 ^ (ex - Z.min ex ey)) in *.
  set (b := Z.pos my * 2 ^ (ey - Z.min ex ey)) in *.
  assert (Hapos : 0 < a) by (apply Z.mul_pos_pos; [lia|apply Z.pow_pos_nonneg; lia]).
  assert (Hbpos : 0 < b) by (apply Z.mul_pos_pos; [lia|apply Z.pow_pos_nonneg; lia]).
  apply Bool.eq_iff_eq_true. rewrite Z.ltb_lt, FloatFacts.SFltb_finite.
  destruct sx, sy; cbn [cond_Zopp]; split; intros H;
    intuition (try discriminate; try lia).
Qed.

Lemma Prim2SF_not_nan (a : float) : is_nan a = false -> Prim2SF a <> S754_nan.
Proof.
  intros H. unfold Prim2SF. rewrite H.
  destruct (is_zero a); [discriminate|].
  destruct (is_infinity a); [discriminate|].
  destruct (Z.frexp a) as [r e].
  destruct (shr_fexp prec emax _ _ _) as [mrs e'].
  destruct (shr_m mrs); discriminate.
Qed.

(** The comparator of the sort is negative exactly when its first
    argument is below the second, for all numbers but NaN. *)
Lemma sub_neg (a b : float) :
  is_nan a = false -> is_nan b = false ->
  (a - b <? 0)%float = (a <? b)%float.
Proof.
  intros Ha Hb. rewrite !ltb_spec, sub_spec.
  replace (Prim2SF 0%float) with (S754_zero false) by (vm_compute; reflexivity).
  apply SFsub_neg; auto using Prim2SF_valid, Prim2SF_not_nan.
Qed.

End SubtractionFacts.

(* ===================================================================== *)
(** ** The median *)
(* ===================================================================== *)

Module MedianFacts.
Import JSNumber Binary64 SubtractionFacts FloatFacts.

Lemma insertSorted_perm (x : number) (l : list number) :
  Permutation (x :: l) (Root.insertSorted x l).
Proof.
  induction l as [|y l IH]; cbn [Root.insertSorted]; [reflexivity|].
  destruct (x - y <? 0)%float; [reflexivity|].
  rewrite perm_swap. now apply perm_skip.
Qed.

Lemma fold_insert_perm (l : list number) :
  forall acc, Permutation (l ++ acc)
                (fold_left (fun acc x => Root.insertSorted x acc) l acc).
Proof.
  induction l as [|x l IH]; intros acc; cbn [fold_left app]; [reflexivity|].
  rewrite <- IH. rewrite <- insertSorted_perm. apply Permutation_middle.
Qed.

(** The sorted array holds the same amounts. *)
Lemma sortAscending_perm (l : list number) : Permutation l (Root.sortAscending l).
Proof.
  unfold Root.sortAscending. rewrite <- fold_insert_perm. now rewrite app_nil_r.
Qed.

Lemma sortAscending_length (l : list number) :
  List.length (Root.sortAscending l) = List.length l.
Proof. symmetry. apply Permutation_length, sortAscending_perm. Qed.

Lemma insertSorted_sorted (x : number) (l : list number) :
  isNaN x = false -> Forall (fun y => isNaN y = false) l ->
  StronglySorted notAbove l -> StronglySorted notAbove (Root.insertSorted x l).
Proof.
  intros Hx. induction l as [|y l IH]; cbn [Root.insertSorted]; intros Hl Hs.
  - constructor; constructor.
  - inversion Hl as [|? ? Hy Hl']. inversion Hs as [|? ? Hs' Hall]. subst.
    rewrite (sub_neg x y Hx Hy). destruct (x <? y)%float eqn:E.
    + constructor; [exact Hs|]. constructor.
      * unfold notAbove. now apply ltb_asym.
      * eapply Forall_impl; [|exact Hall]. unfold notAbove. intros z Hz.
        destruct (z <? x)%float eqn:Ez; [|reflexivity].
        now rewrite (@ltb_trans z x y Ez E) in Hz.
    + constructor; [now apply IH|].
      apply (Permutation_Forall (insertSorted_perm x l)).
      constructor; [exact E|exact Hall].
Qed.

Lemma fold_insert_sorted (l : list number) :
  Forall (fun y => isNaN y = false) l ->
  forall acc,
    Forall (fun y => isNaN y = false) acc ->
    StronglySorted notAbove acc ->
    StronglySorted notAbove (fold_left (fun acc x => Root.insertSorted x acc) l acc)
    .
Proof.
  induction l as [|x l IH]; intros Hl acc Hacc Hs; cbn [fold_left]; [exact Hs|].
  inversion Hl as [|? ? Hx Hl']. subst. apply IH; [exact Hl'| |].
  - apply (Permutation_Forall (insertSorted_perm x acc)). now constructor.
  - now apply insertSorted_sorted.
Qed.

(** Without NaN among the amounts the sorted array is ascending. *)
Lemma sortAscending_sorted (l : list number) :
  Forall (fun y => isNaN y = false) l ->
  StronglySorted notAbove (Root.sortAscending l).
Proof.
  intros Hl. apply fold_insert_sorted; [exact Hl|constructor|constructor].
Qed.

Lemma mod2_even (n : nat) : (n mod 2 =? 0)%nat = Nat.even n.
Proof.
  destruct (Nat.even n) eqn:E.
  - apply Nat.even_spec in E as [k ->].
    now rewrite Nat.mul_comm, Nat.Div0.mod_mul.
  - assert (Ho : Nat.odd n = true) by (unfold Nat.odd; now rewrite E).
    apply Nat.odd_spec in Ho as [k ->].
    now rewrite Nat.add_comm, Nat.mul_comm, Nat.Div0.mod_add.
Qed.

(** C7. For a non-empty list of amounts the median is the midpoint of
    the sorted array: its middle element when the count is odd, half the
    sum of its two middle elements when the count is even.  The sorted
    array holds the amounts of the list, and is ascending when none of
    them is NaN. *)
Theorem median_midpoint_of_sorted (l : list number) :
  l <> [] ->
  let sorted := Root.sortAscending l in
  let n := List.length l in
  Permutation l sorted
  /\ (Forall (fun x => isNaN x = false) l -> StronglySorted notAbove sorted)
  /\ Root.median l =
     if Nat.even n
     then ((nth (n / 2 - 1) sorted nan + nth (n / 2) sorted nan) / 2)%float
     else nth (n / 2) sorted nan.
Proof.
  intros Hne sorted n. split; [apply sortAscending_perm|].
  split; [apply sortAscending_sorted|].
  subst sorted n. unfold Root.median, Root.at_.
  rewrite !sortAscending_length.
  assert (Hn : (0 <? List.length l)%nat = true).
  { apply Nat.ltb_lt. destruct l; [contradiction|simpl; lia]. }
  now rewrite Hn, mod2_even.
Qed.

(** For 10, 20, 20 and 30 the median is 20. *)
Lemma median_midpoint_of_sorted_witness :
  Root.median [10; 20; 20; 30]%float = 20%float.
Proof.
  assert (Hne : [10; 20; 20; 30]%float <> []) by discriminate.
  exact (proj2 (proj2 (median_midpoint_of_sorted Hne))).
Defined.

Example median_of_two : Root.median [5; 15]%float = 10%float.
Proof. reflexivity. Qed.

Example median_of_odd : Root.median [30; 10; 20]%float = 20%float.
Proof. reflexivity. Qed.

Example sorted_example :
  Root.sortAscending [3; 1; 2; 10; -5; 2.5; 1]%float = [-5; 1; 1; 2; 2.5; 3; 10]%float.
Proof. reflexivity. Qed.

End MedianFacts.
